(** * goresearch: severity scoring engine

    A shallow embedding of [scoring.py], [utils.py] and the [insert]
    statement of [database.py], with the properties of the scoring engine
    proved over it.

    Conventions of the embedding:
    - a Python [float] is the rational number it denotes ([Q]); arithmetic
      is exact, comparisons are the boolean comparisons of [Q]; NaN and the
      infinities are outside the model;
    - a Python [str] is a [string] whose characters are the code points
      below 256 (Latin-1), which fixes [str.lower], [str.strip] and the
      whitespace accepted by [int];
    - a raised exception is the [Raise] case of [result];
    - the tables of [config.py] are the variables of the sections, named as
      in the [import] of [scoring.py];
    - the network and the image decoder are two functions of the section
      ([requests_get], [Image_open]) that may answer with [Raise]. *)

From Stdlib Require Import ZArith QArith Qround Lqa Lia List String Ascii Bool.
From Stdlib Require Import Sorted Permutation.
From stdpp Require Import gmap strings.

(** ** Exceptions *)

Inductive exn : Type :=
| IndexError
| ValueError
| ZeroDivisionError
| RequestException
| HTTPError (status : Z)
| UnidentifiedImageError.

Inductive result (A : Type) : Type :=
| Ok (a : A)
| Raise (e : exn).
Arguments Ok {A} a.
Arguments Raise {A} e.

Definition bind {A B : Type} (r : result A) (k : A -> result B) : result B :=
  match r with
  | Ok a => k a
  | Raise e => Raise e
  end.

(** [try: body / except Exception: handler]: every constructor of [exn] is
    a subclass of [Exception]. *)
Definition try_except {A : Type} (body : result A) (handler : result A) : result A :=
  match body with
  | Ok a => Ok a
  | Raise _ => handler
  end.

Declare Scope py_scope.
Delimit Scope py_scope with py.
Notation "'let*' x ':=' r 'in' k" := (bind r (fun x => k))
  (at level 10, x pattern, r at level 200, k at level 200) : py_scope.

(** ** Floats *)

Module PyFloat.
Local Open Scope Q_scope.

Definition ltb (a b : Q) : bool := (Qnum a * QDen b <? Qnum b * QDen a)%Z.
Definition leb (a b : Q) : bool := Qle_bool a b.
Definition eqb (a b : Q) : bool := Qeq_bool a b.

(** [min(a, b)] keeps [a] unless [b < a]; [max(a, b)] keeps [a] unless
    [b > a]. *)
Definition py_min (a b : Q) : Q := if ltb b a then b else a.
Definition py_max (a b : Q) : Q := if ltb a b then b else a.

(** [a / b] on floats. *)
Definition truediv (a b : Q) : result Q :=
  if eqb b 0 then Raise ZeroDivisionError else Ok (a / b).

(** [int(x)]: truncation toward zero. *)
Definition py_int (x : Q) : Z := Z.quot (Qnum x) (QDen x).

(** Nearest integer, ties to the even one. *)
Definition round_half_even (x : Q) : Z :=
  let f := Qfloor x in
  let d := x - inject_Z f in
  if ltb d (1 # 2) then f
  else if ltb (1 # 2) d then (f + 1)%Z
  else if Z.even f then f else (f + 1)%Z.

(** [round(x, 2)]. *)
Definition py_round2 (x : Q) : Q := inject_Z (round_half_even (x * 100)) / 100.

End PyFloat.

(** ** Strings *)

Module PyStr.
Local Open Scope string_scope.
Local Open Scope N_scope.

Definition code (c : ascii) : N := N_of_ascii c.

Definition between (lo hi n : N) : bool := (lo <=? n) && (n <=? hi).

(** [str.isspace] on the code points below 256. *)
Definition is_space (c : ascii) : bool :=
  let n := code c in
  between 9 13 n || between 28 32 n || (n =? 133) || (n =? 160).

Definition is_upper (c : ascii) : bool :=
  let n := code c in
  between 65 90 n || between 192 214 n || between 216 222 n.

Definition lower_char (c : ascii) : ascii :=
  if is_upper c then ascii_of_N (code c + 32) else c.

(** [s.lower()] *)
Fixpoint lower (s : string) : string :=
  match s with
  | EmptyString => EmptyString
  | String c s' => String (lower_char c) (lower s')
  end.

Definition is_empty (s : string) : bool :=
  match s with EmptyString => true | _ => false end.

Fixpoint lstrip (s : string) : string :=
  match s with
  | EmptyString => EmptyString
  | String c s' => if is_space c then lstrip s' else s
  end.

Fixpoint rstrip (s : string) : string :=
  match s with
  | EmptyString => EmptyString
  | String c s' =>
      let r := rstrip s' in
      if is_space c && is_empty r then EmptyString else String c r
  end.

(** [s.strip()] *)
Definition strip (s : string) : string := rstrip (lstrip s).

(** [sub in s] *)
Fixpoint str_in (sub s : string) : bool :=
  String.prefix sub s ||
  match s with
  | EmptyString => false
  | String _ s' => str_in sub s'
  end.

(** [s[i:j]] for [0 <= i <= j]. *)
Definition slice (i j : nat) (s : string) : string := substring i (j - i) s.

(** [s.lstrip("#")] *)
Fixpoint lstrip_hash (s : string) : string :=
  match s with
  | String "#" s' => lstrip_hash s'
  | _ => s
  end.

Definition hex_value (c : ascii) : option Z :=
  let n := code c in
  if between 48 57 n then Some (Z.of_N (n - 48))
  else if between 97 102 n then Some (Z.of_N (n - 87))
  else if between 65 70 n then Some (Z.of_N (n - 55))
  else None.

(** The whitespace [int] skips around the digits of a string of at most
    two characters. *)
Definition is_int_space (c : ascii) : bool :=
  let n := code c in
  between 9 13 n || (n =? 32) || (n =? 133) || (n =? 160).

(** [int(s, 16)] where [s] is a slice [h[i:i+2]], hence of length at most
    two: one or two hexadecimal digits, or one digit with a sign before it
    or a blank on either side.  Anything else is a [ValueError]. *)
Definition int16 (s : string) : result Z :=
  match s with
  | String c EmptyString =>
      match hex_value c with
      | Some d => Ok d
      | None => Raise ValueError
      end
  | String c1 (String c2 EmptyString) =>
      match hex_value c1, hex_value c2 with
      | Some d1, Some d2 => Ok (16 * d1 + d2)%Z
      | Some d1, None => if is_int_space c2 then Ok d1 else Raise ValueError
      | None, Some d2 =>
          if is_int_space c1 then Ok d2
          else if Ascii.eqb c1 "+" then Ok d2
          else if Ascii.eqb c1 "-" then Ok (- d2)%Z
          else Raise ValueError
      | None, None => Raise ValueError
      end
  | _ => Raise ValueError
  end.

Definition hex_digit (d : Z) : ascii :=
  if (d <? 10)%Z then ascii_of_N (Z.to_N d + 48) else ascii_of_N (Z.to_N d + 55).

Fixpoint hex_digits (fuel : nat) (n : Z) (acc : string) : string :=
  match fuel with
  | O => acc
  | S fuel' =>
      let acc' := String (hex_digit (n mod 16)) acc in
      if (n / 16 =? 0)%Z then acc' else hex_digits fuel' (n / 16) acc'
  end.

(** Upper-case hexadecimal digits of [n >= 0], without padding. *)
Definition to_hex (n : Z) : string :=
  hex_digits (S (Z.to_nat (Z.log2 n))) n EmptyString.

(** [f"{n:02X}"]: the sign counts in the width. *)
Definition format_02X (n : Z) : string :=
  if (n <? 0)%Z then String "-" (to_hex (- n))
  else
    let h := to_hex n in
    if (String.length h <? 2)%nat then String "0" h else h.

End PyStr.

(** ** scoring.py and utils.py *)

(** An article of the news API: a JSON object whose fields are strings or
    [null]. *)
Abbreviation article := (gmap string (option string)).

(** A pixel of an image converted to RGB. *)
Definition pixel : Type := Z * Z * Z.

Record response : Type := {
  status_code : Z;
  content : string
}.

Section Scoring.
Import PyFloat PyStr.
Local Open Scope Q_scope.
Local Open Scope py_scope.

(** The tables of [config.py]. *)
Variable KEYWORD_WEIGHTS : list (string * Q).
Variable FALSE_POSITIVE_EXCLUSIONS : gmap string (list string).
Variable FICTION_FAKE_INDICATORS : list string.
Variable REAL_CONTENT_WEIGHTS : list (string * Q).
Variable SEVERITY_COLOR_ANCHORS : list (Q * string).
Variable SEVERITY_MIN SEVERITY_MAX : Q.
Variable IMAGE_RED_PERCENT_TO_SEVERITY : Q.

(** [requests.get(url, timeout=6)] and [Image.open(BytesIO(c)).convert("RGB")]
    followed by [list(img.getdata())]. *)
Variable requests_get : string -> result response.
Variable Image_open : string -> result (list pixel).

Definition _is_false_positive (text keyword : string) : bool :=
  match FALSE_POSITIVE_EXCLUSIONS !! keyword with
  | None => false
  | Some excls =>
      let text_lower := lower text in
      existsb (fun excl => str_in excl text_lower) excls
  end.

(** [sorted(d.items(), key=lambda x: -x[1])]: a stable sort on the key
    [-x[1]], compared with [<]. *)
Definition sort_key (x : string * Q) : Q := - snd x.

Fixpoint insert_by_key (x : string * Q) (l : list (string * Q)) : list (string * Q) :=
  match l with
  | [] => [x]
  | y :: l' =>
      if ltb (sort_key y) (sort_key x) then y :: insert_by_key x l'
      else x :: l
  end.

Fixpoint sorted_by_weight (items : list (string * Q)) : list (string * Q) :=
  match items with
  | [] => []
  | x :: l => insert_by_key x (sorted_by_weight l)
  end.

(** The keyword loop of [score_text], from a running [total]. *)
Fixpoint keyword_loop (text_lower : string) (items : list (string * Q)) (total : Q) : Q :=
  match items with
  | [] => total
  | (keyword, weight) :: rest =>
      if str_in keyword text_lower && negb (_is_false_positive text_lower keyword) then
        let total := total + weight in
        if leb 1 total then total else keyword_loop text_lower rest total
      else keyword_loop text_lower rest total
  end.

(** The loop over [FICTION_FAKE_INDICATORS]. *)
Fixpoint fiction_loop (text_lower : string) (indicators : list string) (total : Q) : Q :=
  match indicators with
  | [] => total
  | indicator :: rest =>
      if str_in indicator text_lower then total * (1 # 4)
      else fiction_loop text_lower rest total
  end.

(** The loop over the sorted [REAL_CONTENT_WEIGHTS]. *)
Fixpoint bonus_loop (text_lower : string) (items : list (string * Q)) (total : Q) : Q :=
  match items with
  | [] => total
  | (phrase, bonus) :: rest =>
      if str_in phrase text_lower then py_min 1 (total + bonus)
      else bonus_loop text_lower rest total
  end.

(** The total of [score_text] after [total = min(1.0, total)]. *)
Definition capped_keyword_total (text_lower : string) : Q :=
  py_min 1 (keyword_loop text_lower (sorted_by_weight KEYWORD_WEIGHTS) 0).

Definition score_text (text : string) : Q :=
  if is_empty text || is_empty (strip text) then 0
  else
    let text_lower := lower text in
    let total := capped_keyword_total text_lower in
    let total := fiction_loop text_lower FICTION_FAKE_INDICATORS total in
    let total := bonus_loop text_lower (sorted_by_weight REAL_CONTENT_WEIGHTS) total in
    py_max 0 (py_min 1 total).

(** [resp.raise_for_status()] *)
Definition raise_for_status (resp : response) : result unit :=
  if (400 <=? status_code resp)%Z && (status_code resp <? 600)%Z
  then Raise (HTTPError (status_code resp))
  else Ok tt.

Definition is_bright_red (p : pixel) : bool :=
  let '(r, g, b) := p in
  (140 <? r)%Z && (g <? 110)%Z && (b <? 110)%Z.

Definition is_dark_red (p : pixel) : bool :=
  let '(r, g, b) := p in
  (70 <? r)%Z && (g <? 55)%Z && (b <? 55)%Z && (g <? r)%Z && (b <? r)%Z.

(** The pixel loop of [_blood_red_percentage]. *)
Fixpoint count_loop (pixels : list pixel) (count : Z) : Z :=
  match pixels with
  | [] => count
  | p :: rest =>
      if is_bright_red p then count_loop rest (count + 1)
      else if is_dark_red p then count_loop rest (count + 1)
      else count_loop rest count
  end.

Definition percentage (count total : Z) : Q :=
  if (0 <? total)%Z then inject_Z count / inject_Z total * 100 else 0.

Definition _blood_red_percentage (url : string) : result (bool * Q) :=
  try_except
    (let* resp := requests_get url in
     let* _ := raise_for_status resp in
     let* pixels := Image_open (content resp) in
     let total := Z.of_nat (length pixels) in
     let count := count_loop pixels 0 in
     Ok (true, percentage count total))
    (Ok (false, 0)).

Definition image_gore_score (url : string) : result Q :=
  try_except
    (let* sp := _blood_red_percentage url in
     let pct := snd sp in
     let cap := py_max (1 # 100) IMAGE_RED_PERCENT_TO_SEVERITY in
     let* q := truediv pct cap in
     Ok (py_min 1 q))
    (Ok 0).

Definition score_image_from_url (url : string) : result Q :=
  let* raw := image_gore_score url in
  Ok (py_min 1 (py_max 0 raw)).

(** [article.get(key)] *)
Definition article_get (a : article) (key : string) : option string :=
  match a !! key with
  | Some v => v
  | None => None
  end.

(** [v or s] with the empty string for [s] *)
Definition or_empty (v : option string) : string :=
  match v with
  | Some s => s
  | None => EmptyString
  end.

(** [not v] for a string or [None]. *)
Definition falsy (v : option string) : bool := is_empty (or_empty v).

Definition score_article (a : article) (include_image : bool) : result Q :=
  let title := or_empty (article_get a "title") in
  let desc := or_empty (article_get a "description") in
  let text_score := score_text (title ++ " " ++ desc) in
  if negb include_image then Ok text_score
  else
    let image_url := article_get a "urlToImage" in
    if falsy image_url then Ok text_score
    else
      let* img_score := score_image_from_url (or_empty image_url) in
      Ok (py_max text_score img_score).

Definition clamp_severity_display (score : Q) : Q :=
  py_max SEVERITY_MIN (py_min SEVERITY_MAX (py_round2 score)).

(** [tuple(int(h[i:i+2], 16) for i in (0, 2, 4))] after [h.lstrip("#")]. *)
Definition parse (h : string) : result (Z * Z * Z) :=
  let h := lstrip_hash h in
  let* r := int16 (slice 0 2 h) in
  let* g := int16 (slice 2 4 h) in
  let* b := int16 (slice 4 6 h) in
  Ok (r, g, b).

(** [int(a + (b - a) * t)] *)
Definition lerp_channel (a b : Z) (t : Q) : Z :=
  py_int (inject_Z a + inject_Z (b - a) * t).

Definition format_color (r g b : Z) : string :=
  String "#" (format_02X r ++ format_02X g ++ format_02X b).

Definition _lerp_hex (hex_a hex_b : string) (t : Q) : result string :=
  let* a := parse hex_a in
  let* b := parse hex_b in
  let '(a0, a1, a2) := a in
  let '(b0, b1, b2) := b in
  let r := lerp_channel a0 b0 t in
  let g := lerp_channel a1 b1 t in
  let b_ := lerp_channel a2 b2 t in
  Ok (format_color r g b_).

(** [anchors[0]] and [anchors[-1]] *)
Definition first_anchor (anchors : list (Q * string)) : result (Q * string) :=
  match anchors with
  | [] => Raise IndexError
  | a :: _ => Ok a
  end.

Definition last_anchor (anchors : list (Q * string)) : result (Q * string) :=
  match rev anchors with
  | [] => Raise IndexError
  | a :: _ => Ok a
  end.

(** The loop [for i in range(len(anchors) - 1)] of [score_to_color]:
    [Some] is a [return] from inside the loop. *)
Fixpoint bracket_loop (anchors : list (Q * string)) (s : Q) : option (result string) :=
  match anchors with
  | (a_val, a_hex) :: ((b_val, b_hex) :: _) as rest =>
      if leb a_val s && leb s b_val then
        let t := if negb (eqb b_val a_val) then (s - a_val) / (b_val - a_val) else 1 in
        Some (_lerp_hex a_hex b_hex t)
      else bracket_loop rest s
  | _ => None
  end.

Definition score_to_color (score : Q) : result string :=
  let s := py_max 0 (py_min 1 score) in
  let anchors := SEVERITY_COLOR_ANCHORS in
  let* a0 := first_anchor anchors in
  if leb s (fst a0) then Ok (snd a0)
  else
    let* an := last_anchor anchors in
    if leb (fst an) s then Ok (snd an)
    else
      match bracket_loop anchors s with
      | Some r => r
      | None => Ok (snd an)
      end.

End Scoring.

(** ** database.py *)

Module Database.
Import PyFloat PyStr.
Local Open Scope Q_scope.

(** A row of the table [findings]. *)
Record finding : Type := {
  id : Z;
  title : string;
  url : string;
  source_name : string;
  media_type : string;
  severity_score : Q;
  published_at : string;
  snippet : string;
  fetched_at : string
}.

(** The table and the last value of its [AUTOINCREMENT] key. *)
Record db : Type := {
  findings : list finding;
  last_id : Z
}.

(** [v or default] *)
Definition or_default (v : option string) (default : string) : string :=
  match v with
  | None => default
  | Some s => if is_empty s then default else s
  end.

(** [INSERT OR REPLACE] under [UNIQUE(url)]: the rows in conflict with the
    new one are deleted, then the new row is added under a fresh id. *)
Definition insert_or_replace (d : db) (row : Z -> finding) : db :=
  let new_id := (last_id d + 1)%Z in
  let new_row := row new_id in
  {| findings :=
       List.filter (fun r => negb (String.eqb (url r) (url new_row))) (findings d)
       ++ [new_row];
     last_id := new_id |}.

(** [insert]; [now] is [datetime.utcnow().isoformat() + "Z"]. *)
Definition insert (d : db) (now : string) (url_ : string)
    (source_name_ media_type_ : option string) (severity_score_ : Q)
    (title_ published_at_ snippet_ : option string) : db :=
  insert_or_replace d (fun new_id =>
    {| id := new_id;
       title := slice 0 500 (or_default title_ EmptyString);
       url := slice 0 2000 url_;
       source_name := slice 0 100 (or_default source_name_ "unknown");
       media_type := slice 0 50 (or_default media_type_ "unknown");
       severity_score := py_max 0 (py_min 1 severity_score_);
       published_at := slice 0 50 (or_default published_at_ EmptyString);
       snippet := slice 0 2000 (or_default snippet_ EmptyString);
       fetched_at := now |}).

(** One call of [insert] with its arguments. *)
Record insert_call : Type := {
  call_now : string;
  call_url : string;
  call_source_name : option string;
  call_media_type : option string;
  call_severity_score : Q;
  call_title : option string;
  call_published_at : option string;
  call_snippet : option string
}.

Definition apply_call (d : db) (c : insert_call) : db :=
  insert d (call_now c) (call_url c) (call_source_name c) (call_media_type c)
    (call_severity_score c) (call_title c) (call_published_at c) (call_snippet c).

(** The table after [init_db] on a new file, and after a sequence of calls
    of [insert]. *)
Definition empty_db : db := {| findings := []; last_id := 0 |}.

Definition insert_all (d : db) (calls : list insert_call) : db :=
  fold_left apply_call calls d.

(** The invariant of the table: every stored severity is in [0, 1]. *)
Definition severities_in_range (d : db) : Prop :=
  Forall (fun r => 0 <= severity_score r <= 1) (findings d).

End Database.

(** ** Notions used in the statements *)

Module Spec.
Import PyFloat PyStr.
Local Open Scope Q_scope.

(** [heavier x y]: [x] may stand before [y] in descending-weight order. *)
Definition heavier (x y : string * Q) : Prop := snd y <= snd x.

(** The entries of one weight, in the order of the list. *)
Definition of_weight (w : Q) (l : list (string * Q)) : list (string * Q) :=
  List.filter (fun x => eqb (snd x) w) l.

(** [contributes EX text kw]: the keyword of [kw] is in the lower-cased
    text and none of its exclusions is. *)
Definition contributes (EX : gmap string (list string)) (text_lower : string)
    (kw : string * Q) : bool :=
  str_in (fst kw) text_lower && negb (_is_false_positive EX text_lower (fst kw)).

(** Every character of [s] is whitespace. *)
Fixpoint blank (s : string) : bool :=
  match s with
  | EmptyString => true
  | String c s' => is_space c && blank s'
  end.

(** [present text_lower s]: [s in text_lower]. *)
Definition present (text_lower : string) (s : string) : bool := str_in s text_lower.

(** The first phrase of [items] that is in the text, with its bonus. *)
Definition first_phrase (text_lower : string) (items : list (string * Q))
    : option (string * Q) :=
  List.find (fun pb => str_in (fst pb) text_lower) items.

(** Bright red: R > 140, G < 110, B < 110. *)
Definition bright_red (p : pixel) : bool :=
  let '(r, g, b) := p in
  ((r >? 140) && (g <? 110) && (b <? 110))%Z.

(** Dark red: R > 70, G < 55, B < 55, R > G, R > B. *)
Definition dark_red (p : pixel) : bool :=
  let '(r, g, b) := p in
  ((r >? 70) && (g <? 55) && (b <? 55) && (r >? g) && (r >? b))%Z.

(** A blood-like pixel: bright red or dark red. *)
Definition blood_like (p : pixel) : bool := bright_red p || dark_red p.

(** (blood-like pixel count / total pixel count) x 100, and 0.0 for an
    image without pixels. *)
Definition blood_percentage (pixels : list pixel) : Q :=
  match pixels with
  | [] => 0
  | _ =>
      inject_Z (Z.of_nat (length (List.filter blood_like pixels)))
      / inject_Z (Z.of_nat (length pixels)) * 100
  end.

(** [not resp.ok]: a 4xx or 5xx status, for which [raise_for_status]
    raises. *)
Definition error_status (resp : response) : bool :=
  (400 <=? status_code resp)%Z && (status_code resp <? 600)%Z.



(** A channel of a 24-bit colour. *)
Definition is_channel (n : Z) : bool := ((0 <=? n) && (n <=? 255))%Z.

(** [format_02X n] has two characters, the first is not [#], and [int16]
    reads [n] back from them. *)
Definition reads_back (n : Z) : bool :=
  match format_02X n with
  | String c1 (String c2 EmptyString) =>
      negb (Ascii.eqb c1 "#") &&
      match int16 (String c1 (String c2 EmptyString)) with
      | Ok m => (m =? n)%Z
      | Raise _ => false
      end
  | _ => false
  end.

(** The score clamped as [score_to_color] does first. *)
Definition clamp01 (score : Q) : Q := py_max 0 (py_min 1 score).

(** The sum of the weights of the entries of [l]. *)
Definition weight_sum (l : list (string * Q)) : Q :=
  fold_right (fun kw acc => snd kw + acc) 0 l.

(** No weight of [l] is negative, as for the weights in (0, 1] of the
    keyword table. *)
Definition nonneg_weights (l : list (string * Q)) : bool :=
  forallb (fun kw => leb 0 (snd kw)) l.

End Spec.

(** ** A sample lexicon, to run the definitions on *)

Module Sample.
Local Open Scope string_scope.
Local Open Scope Q_scope.

Definition KEYWORD_WEIGHTS : list (string * Q) :=
  [("blood", 6 # 10); ("gore", 1 # 2); ("murder", 7 # 10); ("shooting", 3 # 10);
   ("stabbing", 1 # 2)].

Definition FALSE_POSITIVE_EXCLUSIONS : gmap string (list string) :=
  <["blood" := ["blood donation"; "blood test"]]>
  (<["shooting" := ["shooting star"; "photo shoot"]]> ∅).

Definition FICTION_FAKE_INDICATORS : list string := ["movie"; "film"; "trailer"].

Definition REAL_CONTENT_WEIGHTS : list (string * Q) :=
  [("cctv", 15 # 100); ("real footage", 2 # 10)].

Definition SEVERITY_COLOR_ANCHORS : list (Q * string) :=
  [(0, "#00FF00"); (1 # 2, "#FFFF00"); (1, "#FF0000")].

Definition SEVERITY_MIN : Q := 1 # 10.
Definition SEVERITY_MAX : Q := 1.
Definition IMAGE_RED_PERCENT_TO_SEVERITY : Q := 25.

Definition score_text : string -> Q :=
  score_text KEYWORD_WEIGHTS FALSE_POSITIVE_EXCLUSIONS FICTION_FAKE_INDICATORS
    REAL_CONTENT_WEIGHTS.

(** A small world: one reachable image, one missing, one that is not an
    image, and a host that does not answer. *)
Definition requests_get (url : string) : result response :=
  if String.eqb url "http://img.example/red.png"
  then Ok {| status_code := 200; content := "red" |}
  else if String.eqb url "http://img.example/scene.png"
  then Ok {| status_code := 200; content := "scene" |}
  else if String.eqb url "http://img.example/page.html"
  then Ok {| status_code := 200; content := "<html>" |}
  else if String.eqb url "http://img.example/gone.png"
  then Ok {| status_code := 404; content := "not found" |}
  else Raise RequestException.

Definition red : pixel := (200, 10, 10)%Z.
Definition grey : pixel := (90, 90, 90)%Z.

Definition Image_open (c : string) : result (list pixel) :=
  if String.eqb c "red" then Ok (repeat red 4)
  else if String.eqb c "scene" then Ok (List.app (repeat red 7) (repeat grey 33))
  else Raise UnidentifiedImageError.

Definition score_image_from_url : string -> result Q :=
  score_image_from_url IMAGE_RED_PERCENT_TO_SEVERITY requests_get Image_open.

Definition score_article : article -> bool -> result Q :=
  score_article KEYWORD_WEIGHTS FALSE_POSITIVE_EXCLUSIONS FICTION_FAKE_INDICATORS
    REAL_CONTENT_WEIGHTS IMAGE_RED_PERCENT_TO_SEVERITY requests_get Image_open.

Definition news : article :=
  <["title" := Some "Shooting downtown"]>
  (<["description" := None]>
  (<["urlToImage" := Some "http://img.example/scene.png"]> ∅)).

End Sample.

(** ** The legacy entry point of utils.py *)

Section Legacy.
Import PyFloat.
Local Open Scope Q_scope.
Local Open Scope py_scope.

Variable IMAGE_RED_PERCENT_TO_SEVERITY : Q.
Variable requests_get : string -> result response.
Variable Image_open : string -> result (list pixel).

Definition detect_image_gore (url : string) : result (bool * Q) :=
  let* sp := _blood_red_percentage requests_get Image_open url in
  let pct := snd sp in
  Ok (ltb IMAGE_RED_PERCENT_TO_SEVERITY pct, pct).

End Legacy.

(** ** The reading functions of database.py *)

Module DatabaseRead.
Import PyFloat PyStr Database.
Local Open Scope Q_scope.

(** A cell handed to [csv.writer]. *)
Inductive cell : Type :=
| CInt (n : Z)
| CReal (q : Q)
| CText (s : string).

(** The dictionary returned by [get_stats]. *)
Record stats : Type := {
  total : nat;
  by_source : gmap string nat;
  by_media_type : gmap string nat;
  avg_severity : Q
}.

(** [if v:] for a string or [None]. *)
Definition truthy (v : option string) : bool := negb (is_empty (or_empty v)).

(** The [WHERE] clause that [query] builds: a bound is tested when it is
    not [None], a name when it is not empty. *)
Definition where_clause (score_min score_max : option Q)
    (source_name_ media_type_ : option string) (r : finding) : bool :=
  match score_min with
  | Some m => leb m (severity_score r)
  | None => true
  end
  && match score_max with
     | Some m => leb (severity_score r) m
     | None => true
     end
  && (if truthy source_name_
      then String.eqb (source_name r) (or_empty source_name_) else true)
  && (if truthy media_type_
      then String.eqb (media_type r) (or_empty media_type_) else true).

(** [LIMIT ?]: a negative limit is no limit. *)
Definition sql_limit (limit : Z) (rows : list finding) : list finding :=
  if (limit <? 0)%Z then rows else firstn (Z.to_nat limit) rows.

(** [GROUP BY key] with [COUNT( * )], as the dictionary of the pairs. *)
Definition group_count (key : finding -> string) (rows : list finding)
    : gmap string nat :=
  fold_right (fun r m => <[key r := S (default O (m !! key r))]> m) ∅ rows.

Definition sum_severity (rows : list finding) : Q :=
  fold_right (fun r acc => severity_score r + acc) 0 rows.

(** [AVG(severity_score)]: [None] (SQL [NULL]) without rows. *)
Definition sql_avg (rows : list finding) : option Q :=
  match rows with
  | [] => None
  | _ => Some (sum_severity rows / inject_Z (Z.of_nat (length rows)))
  end.

Definition get_stats (d : db) : stats :=
  {| total := length (findings d);
     by_source := group_count source_name (findings d);
     by_media_type := group_count media_type (findings d);
     avg_severity :=
       match sql_avg (findings d) with
       | Some avg_sev => py_round2 avg_sev
       | None => 0
       end |}.

Definition csv_header : list string :=
  ["id"; "title"; "url"; "source_name"; "media_type"; "severity_score";
   "published_at"; "snippet"; "fetched_at"]%string.

Definition csv_row (r : finding) : list cell :=
  [CInt (id r); CText (title r); CText (url r); CText (source_name r);
   CText (media_type r); CReal (severity_score r); CText (published_at r);
   CText (slice 0 500 (snippet r)); CText (fetched_at r)].

Section Query.

(** [ORDER BY fetched_at DESC] as the engine performs it; how it orders
    rows of equal [fetched_at] is its own affair. *)
Variable order_by_fetched_at_desc : list finding -> list finding.

Definition query (d : db) (score_min score_max : option Q)
    (source_name_ media_type_ : option string) (limit : Z) : list finding :=
  sql_limit limit
    (order_by_fetched_at_desc
       (List.filter (where_clause score_min score_max source_name_ media_type_)
          (findings d))).

(** [export_csv]: the header, the rows handed to the writer and the
    returned count. *)
Definition export_csv (d : db) : list string * list (list cell) * nat :=
  let rows := query d None None None None 10000 in
  (csv_header, map csv_row rows, length rows).

End Query.

(** An [ORDER BY fetched_at DESC] that keeps rows of equal [fetched_at] in
    their order. *)
Fixpoint insert_newest (r : finding) (l : list finding) : list finding :=
  match l with
  | [] => [r]
  | x :: l' =>
      if String.ltb (fetched_at r) (fetched_at x) then x :: insert_newest r l'
      else r :: l
  end.

Fixpoint newest_first (l : list finding) : list finding :=
  match l with
  | [] => []
  | r :: l' => insert_newest r (newest_first l')
  end.

End DatabaseRead.

(** ** More notions used in the statements *)

Module Spec2.
Import PyFloat PyStr Spec Database.
Local Open Scope Q_scope.

(** A colour that [parse] reads as three channels. *)
Definition well_formed_color (c : string) : bool :=
  match parse c with
  | Ok (r, g, b) => is_channel r && is_channel g && is_channel b
  | Raise _ => false
  end.

(** No keyword of the table counts for the text. *)
Definition no_keyword (EX : gmap string (list string)) (text_lower : string)
    (items : list (string * Q)) : bool :=
  forallb (fun kw => negb (contributes EX text_lower kw)) items.

(** No phrase of the table is in the text. *)
Definition no_phrase (text_lower : string) (items : list (string * Q)) : bool :=
  forallb (fun pb => negb (str_in (fst pb) text_lower)) items.

(** The row stored under [u], if any. *)
Definition find_url (u : string) (d : db) : option finding :=
  List.find (fun r => String.eqb (url r) u) (findings d).

(** The urls of the table are pairwise distinct, as [UNIQUE(url)] demands. *)
Definition unique_urls (d : db) : Prop := List.NoDup (map url (findings d)).

(** The ids are pairwise distinct and none is above [last_id]. *)
Definition fresh_ids (d : db) : Prop :=
  List.NoDup (map id (findings d)) /\ Forall (fun r => (id r <= last_id d)%Z) (findings d).

(** The lengths that [insert] cuts the text fields to, and the names that
    it never leaves empty. *)
Definition within_limits (r : finding) : Prop :=
  (String.length (title r) <= 500)%nat /\
  (String.length (url r) <= 2000)%nat /\
  (String.length (source_name r) <= 100)%nat /\
  (String.length (media_type r) <= 50)%nat /\
  (String.length (published_at r) <= 50)%nat /\
  (String.length (snippet r) <= 2000)%nat /\
  source_name r <> EmptyString /\ media_type r <> EmptyString.

(** The number of rows of [rows] whose [key] is [k]. *)
Definition count_key (key : finding -> string) (k : string) (rows : list finding) : nat :=
  length (List.filter (fun r => String.eqb (key r) k) rows).

(** The weights that count, added to [total] one after the other in the
    order of [items], as the loop of [score_text] adds them, but to the
    end of the list. *)
Fixpoint accumulate (EX : gmap string (list string)) (text_lower : string)
    (items : list (string * Q)) (total : Q) : Q :=
  match items with
  | [] => total
  | kw :: rest =>
      accumulate EX text_lower rest
        (if contributes EX text_lower kw then total + snd kw else total)
  end.

(** The sum of the counts of a dictionary of [get_stats]. *)
Definition sum_counts (m : gmap string nat) : nat :=
  map_fold (fun _ n acc => (n + acc)%nat) O m.

End Spec2.

(** Two calls of [insert] for the sample table. *)
Module Sample2.
Import Database.
Local Open Scope string_scope.
Local Open Scope Q_scope.

Definition first_call : insert_call :=
  {| call_now := "2024-05-01T10:00:00Z";
     call_url := "http://news.example/a";
     call_source_name := Some "newsapi";
     call_media_type := None;
     call_severity_score := 5 # 2;
     call_title := Some "Shooting downtown";
     call_published_at := None;
     call_snippet := None |}.

Definition second_call : insert_call :=
  {| call_now := "2024-05-02T08:30:00Z";
     call_url := "http://video.example/b";
     call_source_name := Some "duckduckgo";
     call_media_type := Some "video";
     call_severity_score := 1 # 4;
     call_title := None;
     call_published_at := Some "2024-05-01";
     call_snippet := Some "cctv of the scene" |}.

Definition table : db := insert_all empty_db [first_call; second_call].

(** A server that answers 300 (Multiple Choices) with an image as body. *)
Definition choices_get (url_ : string) : result response :=
  Ok {| status_code := 300; content := "red" |}.

(** Two urls of 2003 characters that differ in their last three. *)
Fixpoint filler (n : nat) : string :=
  match n with
  | O => EmptyString
  | S n' => String "a" (filler n')
  end.

Definition long_url (ending : string) : string :=
  "http://news.example/" ++ filler 1980 ++ ending.

(** A table of 10001 rows, newest first, with snippets of 600
    characters. *)
Definition digit (n : Z) : ascii := ascii_of_N (Z.to_N (48 + n mod 10)).

Definition five_digits (n : Z) : string :=
  String (digit (n / 10000)) (String (digit (n / 1000)) (String (digit (n / 100))
    (String (digit (n / 10)) (String (digit n) EmptyString)))).

Definition numbered_row (n : nat) : finding :=
  {| id := Z.of_nat n + 1;
     title := "Report " ++ five_digits (Z.of_nat n);
     url := "http://news.example/" ++ five_digits (Z.of_nat n);
     source_name := "newsapi";
     media_type := "news";
     severity_score := 1 # 2;
     published_at := EmptyString;
     snippet := filler 600;
     fetched_at := "2024-05-01T10:00:00." ++ five_digits (99999 - Z.of_nat n) ++ "Z" |}.

Definition big_table : db :=
  {| findings := map numbered_row (seq 0 (Z.to_nat 10001));
     last_id := 10001 |}.

End Sample2.

(** * Properties *)

(** ** Comparisons, [min] and [max] *)

Module PyFloatFacts.
Import PyFloat.
Local Open Scope Q_scope.

Lemma ltb_lt (a b : Q) : ltb a b = true <-> a < b.
Proof. unfold ltb, Qlt. apply Z.ltb_lt. Qed.

Lemma ltb_ge (a b : Q) : ltb a b = false <-> b <= a.
Proof. unfold ltb, Qle. apply Z.ltb_ge. Qed.

Lemma leb_le (a b : Q) : leb a b = true <-> a <= b.
Proof. apply Qle_bool_iff. Qed.

Lemma leb_gt (a b : Q) : leb a b = false <-> b < a.
Proof.
  split; intros H.
  - apply Qnot_le_lt. intros Hle. apply leb_le in Hle. congruence.
  - destruct (leb a b) eqn:E; [|reflexivity].
    apply leb_le in E. lra.
Qed.

Lemma eqb_eq (a b : Q) : eqb a b = true <-> a == b.
Proof. apply Qeq_bool_iff. Qed.

Lemma eqb_neq (a b : Q) : eqb a b = false <-> ~ a == b.
Proof.
  split; intros H.
  - intros E. apply eqb_eq in E. congruence.
  - destruct (eqb a b) eqn:E; [|reflexivity].
    apply eqb_eq in E. contradiction.
Qed.

End PyFloatFacts.

(** Turns the boolean comparison [c] into two cases with its meaning as a
    hypothesis. *)
Ltac cmp_cases c :=
  let E := fresh "E" in
  destruct c eqn:E;
  [ first [ apply PyFloatFacts.ltb_lt in E | apply PyFloatFacts.leb_le in E
          | apply PyFloatFacts.eqb_eq in E ]
  | first [ apply PyFloatFacts.ltb_ge in E | apply PyFloatFacts.leb_gt in E
          | apply PyFloatFacts.eqb_neq in E ] ].

Module PyMinMaxFacts.
Import PyFloat.
Local Open Scope Q_scope.

Lemma py_min_spec (a b : Q) :
  (b < a /\ py_min a b = b) \/ (a <= b /\ py_min a b = a).
Proof. unfold py_min. cmp_cases (ltb b a); auto. Qed.

Lemma py_max_spec (a b : Q) :
  (a < b /\ py_max a b = b) \/ (b <= a /\ py_max a b = a).
Proof. unfold py_max. cmp_cases (ltb a b); auto. Qed.

Lemma py_min_le_l (a b : Q) : py_min a b <= a.
Proof. destruct (py_min_spec a b) as [[? ->]|[? ->]]; lra. Qed.

Lemma py_min_le_r (a b : Q) : py_min a b <= b.
Proof. destruct (py_min_spec a b) as [[? ->]|[? ->]]; lra. Qed.

Lemma py_max_ge_l (a b : Q) : a <= py_max a b.
Proof. destruct (py_max_spec a b) as [[? ->]|[? ->]]; lra. Qed.

Lemma py_max_ge_r (a b : Q) : b <= py_max a b.
Proof. destruct (py_max_spec a b) as [[? ->]|[? ->]]; lra. Qed.

(** [max(lo, min(hi, x))] is in [[lo, hi]] as soon as [lo <= hi]. *)
Lemma clamp_range (lo hi x : Q) :
  lo <= hi -> lo <= py_max lo (py_min hi x) <= hi.
Proof.
  intros Hlh. split; [apply py_max_ge_l|].
  destruct (py_max_spec lo (py_min hi x)) as [[_ ->]|[_ ->]];
    [apply py_min_le_l | exact Hlh].
Qed.

(** A value already in range is kept (up to [==]: at the lower bound the
    bound itself is returned). *)
Lemma clamp_id (lo hi x : Q) :
  lo <= x <= hi -> py_max lo (py_min hi x) == x.
Proof.
  intros [Hl Hh].
  destruct (py_min_spec hi x) as [[? ->]|[? ->]];
    destruct (py_max_spec lo x) as [[? E]|[? E]];
    destruct (py_max_spec lo hi) as [[? E']|[? E']];
    rewrite ?E, ?E'; lra.
Qed.

Lemma py_min_1_ge (x : Q) : 1 <= x -> py_min 1 x = 1.
Proof. intros H. unfold py_min. cmp_cases (ltb x 1); [lra | reflexivity]. Qed.

End PyMinMaxFacts.

(** ** The stable sort by descending weight *)

Section SortFacts.
Import PyFloat PyFloatFacts Spec.
Local Open Scope Q_scope.

Lemma key_lt (x y : string * Q) :
  ltb (sort_key y) (sort_key x) = true <-> snd x < snd y.
Proof. unfold sort_key. rewrite ltb_lt. split; intros; lra. Qed.

Lemma key_ge (x y : string * Q) :
  ltb (sort_key y) (sort_key x) = false <-> snd y <= snd x.
Proof. unfold sort_key. rewrite ltb_ge. split; intros; lra. Qed.

Lemma insert_by_key_perm x l : Permutation (x :: l) (insert_by_key x l).
Proof.
  induction l as [|y l IH]; simpl; [reflexivity|].
  destruct (ltb (sort_key y) (sort_key x)); [|reflexivity].
  rewrite perm_swap. now apply perm_skip.
Qed.

Lemma sorted_by_weight_perm l : Permutation l (sorted_by_weight l).
Proof.
  induction l as [|x l IH]; simpl; [reflexivity|].
  rewrite <- insert_by_key_perm. now apply perm_skip.
Qed.

Lemma insert_by_key_Forall (P : string * Q -> Prop) x l :
  P x -> Forall P l -> Forall P (insert_by_key x l).
Proof.
  intros Hx Hl. eapply Permutation_Forall; [apply insert_by_key_perm|].
  now constructor.
Qed.

Lemma insert_by_key_sorted x l :
  StronglySorted heavier l -> StronglySorted heavier (insert_by_key x l).
Proof.
  induction 1 as [|y l Hs IH Hy]; simpl.
  - repeat constructor.
  - destruct (ltb (sort_key y) (sort_key x)) eqn:E.
    + apply key_lt in E. constructor; [exact IH|].
      apply insert_by_key_Forall; [|exact Hy].
      unfold heavier. lra.
    + apply key_ge in E. constructor; [now constructor|].
      constructor; [exact E|].
      eapply Forall_impl; [exact Hy|].
      unfold heavier. intros z Hz. lra.
Qed.

Lemma sorted_by_weight_sorted l : StronglySorted heavier (sorted_by_weight l).
Proof.
  induction l as [|x l IH]; simpl; [constructor|].
  now apply insert_by_key_sorted.
Qed.

Lemma insert_by_key_stable w x l :
  of_weight w (insert_by_key x l) = of_weight w (x :: l).
Proof.
  unfold of_weight.
  induction l as [|y l IH]; simpl; [reflexivity|].
  destruct (ltb (sort_key y) (sort_key x)) eqn:E; [|reflexivity].
  apply key_lt in E. simpl in *. rewrite IH.
  cmp_cases (eqb (snd x) w); [|reflexivity].
  cmp_cases (eqb (snd y) w); [lra | reflexivity].
Qed.

Lemma sorted_by_weight_stable w l :
  of_weight w (sorted_by_weight l) = of_weight w l.
Proof.
  induction l as [|x l IH]; simpl; [reflexivity|].
  rewrite insert_by_key_stable. unfold of_weight in *. simpl.
  now rewrite IH.
Qed.

Lemma of_weight_head x l :
  of_weight (snd x) (x :: l) = x :: of_weight (snd x) l.
Proof.
  unfold of_weight. simpl. cmp_cases (eqb (snd x) (snd x)); [reflexivity|].
  exfalso. apply E. reflexivity.
Qed.

Lemma of_weight_In w x l : In x (of_weight w l) -> In x l.
Proof. unfold of_weight. now intros [H _]%filter_In. Qed.

Lemma sorted_head_heaviest x l y :
  StronglySorted heavier (x :: l) -> In y (x :: l) -> snd y <= snd x.
Proof.
  intros Hs [<-|Hy]; [lra|].
  apply StronglySorted_inv in Hs as [_ Hx].
  rewrite List.Forall_forall in Hx. now apply Hx.
Qed.

(** Descending weight and the declaration order among equal weights leave
    one arrangement only: any stable sort gives the list of
    [sorted_by_weight]. *)
Lemma stable_sorted_unique l1 l2 :
  StronglySorted heavier l1 -> StronglySorted heavier l2 ->
  (forall w, of_weight w l1 = of_weight w l2) -> l1 = l2.
Proof.
  revert l2. induction l1 as [|x t1 IH]; intros [|y t2] H1 H2 H.
  - reflexivity.
  - specialize (H (snd y)). rewrite of_weight_head in H. discriminate H.
  - specialize (H (snd x)). rewrite of_weight_head in H. discriminate H.
  - assert (Hx : In x (y :: t2)).
    { apply (of_weight_In (snd x)). rewrite <- H, of_weight_head. now left. }
    assert (Hy : In y (x :: t1)).
    { apply (of_weight_In (snd y)). rewrite H, of_weight_head. now left. }
    pose proof (sorted_head_heaviest _ _ _ H2 Hx) as Hxy.
    pose proof (sorted_head_heaviest _ _ _ H1 Hy) as Hyx.
    assert (E : x = y).
    { pose proof (H (snd x)) as Hw. rewrite of_weight_head in Hw.
      unfold of_weight in Hw. simpl in Hw.
      cmp_cases (eqb (snd y) (snd x)); [|lra].
      now injection Hw. }
    subst y. f_equal. apply IH.
    + now apply StronglySorted_inv in H1.
    + now apply StronglySorted_inv in H2.
    + intros w. specialize (H w). unfold of_weight in *. simpl in H.
      destruct (eqb (snd x) w); [now injection H|exact H].
Qed.

Lemma sorted_by_weight_unique l l' :
  StronglySorted heavier l' -> (forall w, of_weight w l' = of_weight w l) ->
  l' = sorted_by_weight l.
Proof.
  intros Hs Hw. apply stable_sorted_unique; [exact Hs|apply sorted_by_weight_sorted|].
  intros w. now rewrite sorted_by_weight_stable.
Qed.

End SortFacts.

(** ** The keyword loop *)

Section KeywordLoop.
Import PyFloat PyFloatFacts PyMinMaxFacts PyStr Spec.
Local Open Scope Q_scope.

Variable EX : gmap string (list string).
Variable text_lower : string.

Let loop := keyword_loop EX text_lower.
Let counts := contributes EX text_lower.

Lemma keyword_loop_cons kw rest total :
  loop (kw :: rest) total =
  if counts kw then
    if leb 1 (total + snd kw) then total + snd kw else loop rest (total + snd kw)
  else loop rest total.
Proof. destruct kw as [k w]. reflexivity. Qed.

(** Once a prefix of the entries has brought the total to 1.0, what
    follows the prefix is not looked at. *)
Lemma keyword_loop_short_circuit l1 l2 total :
  total < 1 -> 1 <= loop l1 total -> loop (l1 ++ l2) total = loop l1 total.
Proof.
  revert total. induction l1 as [|kw l1 IH]; intros total Hlt Hge.
  - simpl in Hge. unfold loop in Hge. simpl in Hge. lra.
  - rewrite <- app_comm_cons, !keyword_loop_cons in *.
    destruct (counts kw); [|now apply IH].
    cmp_cases (leb 1 (total + snd kw)); [reflexivity|now apply IH].
Qed.

Lemma weight_sum_nonneg l : nonneg_weights l = true -> 0 <= weight_sum l.
Proof.
  induction l as [|kw l IH]; simpl; [lra|].
  intros [Hkw Hl]%andb_true_iff. apply leb_le in Hkw.
  specialize (IH Hl). lra.
Qed.

Lemma nonneg_weights_filter f l :
  nonneg_weights l = true -> nonneg_weights (List.filter f l) = true.
Proof.
  induction l as [|kw l IH]; simpl; [reflexivity|].
  intros [Hkw Hl]%andb_true_iff.
  destruct (f kw); simpl; [rewrite Hkw|]; auto.
Qed.

(** Either the loop has reached 1.0, or it has added every contributing
    weight. *)
Lemma keyword_loop_total l total :
  1 <= loop l total \/ loop l total == total + weight_sum (List.filter counts l).
Proof.
  revert total. induction l as [|kw l IH]; intros total.
  - right. unfold loop. simpl. lra.
  - rewrite keyword_loop_cons. simpl.
    destruct (counts kw); simpl; [|apply IH].
    cmp_cases (leb 1 (total + snd kw)); [now left|].
    destruct (IH (total + snd kw)) as [H|H]; [now left|right].
    rewrite H. lra.
Qed.

Lemma weight_sum_perm l l' : Permutation l l' -> weight_sum l == weight_sum l'.
Proof.
  induction 1; simpl; try lra.
Qed.

Lemma weight_sum_In kw l :
  nonneg_weights l = true -> In kw l -> snd kw <= weight_sum l.
Proof.
  induction l as [|x l IH]; simpl; [contradiction|].
  intros [Hx Hl]%andb_true_iff [->|Hin].
  - pose proof (weight_sum_nonneg l Hl). lra.
  - apply leb_le in Hx. specialize (IH Hl Hin). lra.
Qed.

Lemma weight_sum_two x y l :
  nonneg_weights l = true -> In x l -> In y l -> x <> y ->
  snd x + snd y <= weight_sum l.
Proof.
  induction l as [|z l IH]; simpl; [contradiction|].
  intros [Hz Hl]%andb_true_iff [->|Hx] [->|Hy] Hne.
  - congruence.
  - pose proof (weight_sum_In y l Hl Hy). lra.
  - pose proof (weight_sum_In x l Hl Hx). lra.
  - apply leb_le in Hz. specialize (IH Hl Hx Hy Hne). lra.
Qed.

Lemma nonneg_weights_perm l l' :
  Permutation l l' -> nonneg_weights l = true -> nonneg_weights l' = true.
Proof.
  unfold nonneg_weights. rewrite !forallb_forall.
  intros Hp H x Hx. apply H. eapply Permutation_in; [symmetry; exact Hp|exact Hx].
Qed.

(** Two distinct contributing entries of weights [w1] and [w2] with
    [1 <= w1 + w2] bring the loop over the sorted table to 1.0. *)
Lemma keyword_loop_two KW x y :
  nonneg_weights KW = true -> In x KW -> In y KW -> x <> y ->
  counts x = true -> counts y = true -> 1 <= snd x + snd y ->
  1 <= loop (sorted_by_weight KW) 0.
Proof.
  intros Hnn Hx Hy Hne Cx Cy Hsum.
  destruct (keyword_loop_total (sorted_by_weight KW) 0) as [H|H]; [exact H|].
  rewrite H.
  pose proof (sorted_by_weight_perm KW) as Hp.
  assert (Hnn' : nonneg_weights (List.filter counts (sorted_by_weight KW)) = true).
  { apply nonneg_weights_filter. eapply nonneg_weights_perm; eauto. }
  assert (Hin : forall z, In z KW -> counts z = true ->
                     In z (List.filter counts (sorted_by_weight KW))).
  { intros z Hz Cz. apply filter_In. split; [|exact Cz].
    eapply Permutation_in; eauto. }
  pose proof (weight_sum_two x y _ Hnn' (Hin x Hx Cx) (Hin y Hy Cy) Hne).
  lra.
Qed.

End KeywordLoop.

(** ** [score_text] *)

Section ScoreText.
Import PyFloat PyFloatFacts PyMinMaxFacts PyStr Spec Spec2.
Local Open Scope Q_scope.

Variable KEYWORD_WEIGHTS : list (string * Q).
Variable FALSE_POSITIVE_EXCLUSIONS : gmap string (list string).
Variable FICTION_FAKE_INDICATORS : list string.
Variable REAL_CONTENT_WEIGHTS : list (string * Q).

Let score := score_text KEYWORD_WEIGHTS FALSE_POSITIVE_EXCLUSIONS
               FICTION_FAKE_INDICATORS REAL_CONTENT_WEIGHTS.
Let loop := keyword_loop FALSE_POSITIVE_EXCLUSIONS.
Let capped := capped_keyword_total KEYWORD_WEIGHTS FALSE_POSITIVE_EXCLUSIONS.

Lemma lstrip_blank s : blank s = true -> lstrip s = EmptyString.
Proof.
  induction s as [|c s IH]; simpl; [reflexivity|].
  intros [Hc Hs]%andb_true_iff. rewrite Hc. now apply IH.
Qed.

Lemma strip_blank s : blank s = true -> strip s = EmptyString.
Proof. intros H. unfold strip. now rewrite lstrip_blank. Qed.

Lemma strip_nonempty s : is_empty (strip s) = false -> is_empty s = false.
Proof. destruct s; [discriminate | reflexivity]. Qed.

(** While the total stays below 1.0 the loop adds every weight that
    counts, in the order of the list. *)
Lemma keyword_loop_below_cap text_lower l total :
  loop text_lower l total < 1 ->
  loop text_lower l total = accumulate FALSE_POSITIVE_EXCLUSIONS text_lower l total.
Proof.
  revert total. induction l as [|kw l IH]; intros total H; [reflexivity|].
  unfold loop in *. rewrite keyword_loop_cons in *. simpl.
  destruct (contributes FALSE_POSITIVE_EXCLUSIONS text_lower kw); [|now apply IH].
  cmp_cases (leb 1 (total + snd kw)); [lra|now apply IH].
Qed.

(** What the loop returns is the total accumulated over the entries it
    has visited: all of them, or the first ones that bring it to 1.0. *)
Lemma keyword_loop_visited text_lower l total :
  exists l1 l2,
    l = l1 ++ l2 /\
    loop text_lower l total
    = accumulate FALSE_POSITIVE_EXCLUSIONS text_lower l1 total /\
    (l2 = [] \/ 1 <= loop text_lower l total).
Proof.
  revert total. induction l as [|kw l IH]; intros total.
  - exists [], []. auto.
  - unfold loop in *. rewrite keyword_loop_cons.
    destruct (contributes FALSE_POSITIVE_EXCLUSIONS text_lower kw) eqn:C.
    + cmp_cases (leb 1 (total + snd kw)).
      * exists [kw], l. simpl. rewrite C. auto.
      * destruct (IH (total + snd kw)) as (l1 & l2 & -> & H1 & H2).
        exists (kw :: l1), l2. simpl. rewrite C. auto.
    + destruct (IH total) as (l1 & l2 & -> & H1 & H2).
      exists (kw :: l1), l2. simpl. rewrite C. auto.
Qed.

(** C1: the keyword entries are visited in descending-weight order, entries
    of equal weight in their declaration order, which fixes the order; an
    entry that counts adds its weight to the running total, any other
    leaves it; once the running total has reached 1.0 the remaining entries
    are not visited, so that the loop returns the weights accumulated over
    the entries it has visited, all of them when it stays below 1.0; the
    total is then capped with [min(1.0, total)]; and when two distinct
    contributing entries have weights 0.6 and 0.7 (all weights being
    non-negative) the capped total is exactly 1.0. *)
Theorem score_text_keyword_accumulation (text_lower : string) :
  let items := sorted_by_weight KEYWORD_WEIGHTS in
  (Permutation KEYWORD_WEIGHTS items /\
   StronglySorted heavier items /\
   (forall w, of_weight w items = of_weight w KEYWORD_WEIGHTS) /\
   forall items',
     StronglySorted heavier items' ->
     (forall w, of_weight w items' = of_weight w KEYWORD_WEIGHTS) ->
     items' = items) /\
  (forall l1 l2, 1 <= loop text_lower l1 0 ->
     loop text_lower (l1 ++ l2) 0 = loop text_lower l1 0) /\
  (capped text_lower = py_min 1 (loop text_lower items 0) /\
   capped text_lower <= 1) /\
  (forall k1 w1 k2 w2,
     nonneg_weights KEYWORD_WEIGHTS = true ->
     In (k1, w1) KEYWORD_WEIGHTS -> In (k2, w2) KEYWORD_WEIGHTS ->
     w1 == 6 # 10 -> w2 == 7 # 10 ->
     contributes FALSE_POSITIVE_EXCLUSIONS text_lower (k1, w1) = true ->
     contributes FALSE_POSITIVE_EXCLUSIONS text_lower (k2, w2) = true ->
     capped text_lower = 1) /\
  ((forall total, loop text_lower [] total = total) /\
   forall kw rest total,
     loop text_lower (kw :: rest) total =
     if contributes FALSE_POSITIVE_EXCLUSIONS text_lower kw
     then if leb 1 (total + snd kw) then total + snd kw
          else loop text_lower rest (total + snd kw)
     else loop text_lower rest total) /\
  (forall l total,
     exists l1 l2,
       l = l1 ++ l2 /\
       loop text_lower l total
       = accumulate FALSE_POSITIVE_EXCLUSIONS text_lower l1 total /\
       (l2 = [] \/ 1 <= loop text_lower l total)) /\
  (loop text_lower items 0 < 1 ->
   loop text_lower items 0
   = accumulate FALSE_POSITIVE_EXCLUSIONS text_lower items 0 /\
   capped text_lower = accumulate FALSE_POSITIVE_EXCLUSIONS text_lower items 0).
Proof.
  intros items.
  split; [|split; [|split; [|split; [|split; [|split]]]]].
  - repeat split.
    + apply sorted_by_weight_perm.
    + apply sorted_by_weight_sorted.
    + intros w. apply sorted_by_weight_stable.
    + intros items' Hs Hw. now apply sorted_by_weight_unique.
  - intros l1 l2 H. apply keyword_loop_short_circuit; [lra | exact H].
  - split; [reflexivity|apply py_min_le_l].
  - intros k1 w1 k2 w2 Hnn H1 H2 E1 E2 C1 C2.
    apply py_min_1_ge.
    apply (keyword_loop_two _ _ _ (k1, w1) (k2, w2)); auto.
    + intros E. injection E as _ E. rewrite E in E1. rewrite E1 in E2.
      discriminate E2.
    + simpl. rewrite E1, E2. lra.
  - split; [reflexivity|]. intros kw rest total. apply keyword_loop_cons.
  - intros l total. apply keyword_loop_visited.
  - intros H. pose proof (keyword_loop_below_cap text_lower items 0 H) as E.
    split; [exact E|].
    unfold capped, capped_keyword_total. fold items. fold loop.
    unfold py_min. cmp_cases (ltb (loop text_lower items 0) 1); [exact E|lra].
Qed.

(** C7: [score_text] is in [[0, 1]]; the empty string and the strings made
    of whitespace score 0.0; on any other string the result is the clamp of
    the total left by the penalty and bonus steps. *)
Theorem score_text_unit_interval (s : string) :
  0 <= score s <= 1 /\
  score EmptyString = 0 /\
  (blank s = true -> score s = 0) /\
  (is_empty (strip s) = false ->
   score s =
   py_max 0 (py_min 1
     (bonus_loop (lower s) (sorted_by_weight REAL_CONTENT_WEIGHTS)
        (fiction_loop (lower s) FICTION_FAKE_INDICATORS (capped (lower s)))))).
Proof.
  unfold score, score_text. repeat split.
  - destruct (is_empty s || is_empty (strip s)); [lra|].
    apply clamp_range. lra.
  - destruct (is_empty s || is_empty (strip s)); [lra|].
    apply clamp_range. lra.
  - intros H. rewrite (strip_blank s H). simpl. now rewrite orb_true_r.
  - intros H. now rewrite H, (strip_nonempty s H).
Qed.

End ScoreText.

Lemma score_text_keyword_accumulation_witness :
  (Spec.nonneg_weights Sample.KEYWORD_WEIGHTS = true /\
   capped_keyword_total Sample.KEYWORD_WEIGHTS Sample.FALSE_POSITIVE_EXCLUSIONS
     "breaking: blood at the murder scene" = 1%Q) /\
  ((keyword_loop Sample.FALSE_POSITIVE_EXCLUSIONS "gore after the shooting"
      (sorted_by_weight Sample.KEYWORD_WEIGHTS) 0 < 1)%Q /\
   capped_keyword_total Sample.KEYWORD_WEIGHTS Sample.FALSE_POSITIVE_EXCLUSIONS
     "gore after the shooting" = (0 + (1 # 2) + (3 # 10))%Q).
Proof.
  split; split; [reflexivity| |reflexivity|].
  - apply (proj1 (proj2 (proj2 (proj2 (score_text_keyword_accumulation
             Sample.KEYWORD_WEIGHTS Sample.FALSE_POSITIVE_EXCLUSIONS
             "breaking: blood at the murder scene"))))
           "blood"%string (6 # 10)%Q "murder"%string (7 # 10)%Q).
    + reflexivity.
    + simpl. auto.
    + simpl. auto.
    + reflexivity.
    + reflexivity.
    + vm_compute. reflexivity.
    + vm_compute. reflexivity.
  - rewrite (proj2 (proj2 (proj2 (proj2 (proj2 (proj2 (proj2
               (score_text_keyword_accumulation
                  Sample.KEYWORD_WEIGHTS Sample.FALSE_POSITIVE_EXCLUSIONS
                  "gore after the shooting")))))) eq_refl)).
    reflexivity.
Defined.

Lemma score_text_unit_interval_witness :
  Spec.blank "  " = true /\ Sample.score_text "  " = 0%Q.
Proof.
  split; [reflexivity|].
  apply (proj1 (proj2 (proj2 (score_text_unit_interval
           Sample.KEYWORD_WEIGHTS Sample.FALSE_POSITIVE_EXCLUSIONS
           Sample.FICTION_FAKE_INDICATORS Sample.REAL_CONTENT_WEIGHTS "  ")))).
  reflexivity.
Defined.

(** ** Exclusions, penalty and bonus *)

Section Adjustments.
Import PyFloat PyFloatFacts PyMinMaxFacts PyStr Spec.
Local Open Scope Q_scope.

Variable KEYWORD_WEIGHTS : list (string * Q).
Variable FALSE_POSITIVE_EXCLUSIONS : gmap string (list string).
Variable FICTION_FAKE_INDICATORS : list string.
Variable REAL_CONTENT_WEIGHTS : list (string * Q).

Let loop := keyword_loop FALSE_POSITIVE_EXCLUSIONS.
Let capped := capped_keyword_total KEYWORD_WEIGHTS FALSE_POSITIVE_EXCLUSIONS.

Lemma lower_char_idem c : lower_char (lower_char c) = lower_char c.
Proof. destruct c as [[] [] [] [] [] [] [] []]; reflexivity. Qed.

Lemma lower_idem s : lower (lower s) = lower s.
Proof.
  induction s as [|c s IH]; simpl; [reflexivity|].
  now rewrite lower_char_idem, IH.
Qed.

Lemma is_false_positive_true text keyword excls excl :
  FALSE_POSITIVE_EXCLUSIONS !! keyword = Some excls ->
  In excl excls -> str_in excl (lower text) = true ->
  _is_false_positive FALSE_POSITIVE_EXCLUSIONS text keyword = true.
Proof.
  intros Hk Hin Hp. unfold _is_false_positive. rewrite Hk.
  apply existsb_exists. eauto.
Qed.

Lemma keyword_loop_skip text_lower kw l1 l2 total :
  contributes FALSE_POSITIVE_EXCLUSIONS text_lower kw = false ->
  loop text_lower (l1 ++ kw :: l2) total = loop text_lower (l1 ++ l2) total.
Proof.
  intros Hkw. revert total.
  induction l1 as [|x l1 IH]; intros total; simpl app.
  - unfold loop. rewrite keyword_loop_cons. now rewrite Hkw.
  - unfold loop in *. rewrite !keyword_loop_cons.
    destruct (contributes FALSE_POSITIVE_EXCLUSIONS text_lower x); [|apply IH].
    destruct (leb 1 (total + snd x)); [reflexivity|apply IH].
Qed.

(** C5: a keyword that is in the text together with one of its exclusions
    is a false positive: the loop passes over its entry with the total
    unchanged and goes on with the entries after it, so that the keyword
    total is the one of the table without that entry. *)
Theorem score_text_exclusion (text : string) (keyword : string) (weight : Q)
    (excls : list string) (excl : string) :
  let text_lower := lower text in
  str_in keyword text_lower = true ->
  FALSE_POSITIVE_EXCLUSIONS !! keyword = Some excls ->
  In excl excls ->
  str_in excl text_lower = true ->
  _is_false_positive FALSE_POSITIVE_EXCLUSIONS text_lower keyword = true /\
  (forall rest total,
     loop text_lower ((keyword, weight) :: rest) total = loop text_lower rest total) /\
  (forall l1 l2,
     sorted_by_weight KEYWORD_WEIGHTS = l1 ++ (keyword, weight) :: l2 ->
     capped text_lower = py_min 1 (loop text_lower (l1 ++ l2) 0)).
Proof.
  intros text_lower Hk Hex Hin He.
  assert (Hfp : _is_false_positive FALSE_POSITIVE_EXCLUSIONS text_lower keyword = true).
  { eapply is_false_positive_true; eauto.
    unfold text_lower. now rewrite lower_idem. }
  assert (Hc : contributes FALSE_POSITIVE_EXCLUSIONS text_lower (keyword, weight) = false).
  { unfold contributes. simpl. rewrite Hfp. apply andb_false_r. }
  split; [exact Hfp|]. split.
  - intros rest total. apply (keyword_loop_skip text_lower _ []). exact Hc.
  - intros l1 l2 Hs. unfold capped, capped_keyword_total. rewrite Hs.
    f_equal. now apply keyword_loop_skip.
Qed.

Lemma fiction_loop_spec text_lower indicators total :
  fiction_loop text_lower indicators total =
  if existsb (present text_lower) indicators then total * (1 # 4) else total.
Proof.
  induction indicators as [|i l IH]; simpl; [reflexivity|].
  unfold present at 1. destruct (str_in i text_lower); [reflexivity|exact IH].
Qed.

Lemma bonus_loop_spec text_lower items total :
  bonus_loop text_lower items total =
  match first_phrase text_lower items with
  | Some pb => py_min 1 (total + snd pb)
  | None => total
  end.
Proof.
  unfold first_phrase.
  induction items as [|[p b] l IH]; simpl; [reflexivity|].
  destruct (str_in p text_lower); [reflexivity|exact IH].
Qed.

(** The first phrase found in a list sorted by descending bonus has the
    largest bonus of the phrases that are in the text. *)
Lemma first_phrase_largest text_lower items pb :
  StronglySorted heavier items ->
  first_phrase text_lower items = Some pb ->
  forall pb', In pb' items -> str_in (fst pb') text_lower = true ->
  snd pb' <= snd pb.
Proof.
  unfold first_phrase.
  induction 1 as [|x l Hs IH Hx]; simpl; [discriminate|].
  destruct (str_in (fst x) text_lower) eqn:E.
  - intros [= ->] pb' [->|Hin] _; [lra|].
    rewrite List.Forall_forall in Hx. apply (Hx pb' Hin).
  - intros Hf pb' [->|Hin] Hp; [congruence|].
    now apply IH.
Qed.

(** C6: the penalty multiplies the total by 0.25 once when some fiction
    indicator is in the text, whatever follows the first indicator found;
    the bonus added is the one of the first phrase found in the table
    sorted by descending bonus, which is the largest bonus present, and
    the sum is capped with [min(1.0, _)], so that the total stays at most
    1.0. *)
Theorem score_text_penalty_and_bonus_once (text_lower : string) :
  let phrases := sorted_by_weight REAL_CONTENT_WEIGHTS in
  let after_penalty := fiction_loop text_lower FICTION_FAKE_INDICATORS (capped text_lower) in
  let after_bonus := bonus_loop text_lower phrases after_penalty in
  (after_penalty =
   if existsb (present text_lower) FICTION_FAKE_INDICATORS
   then capped text_lower * (1 # 4) else capped text_lower) /\
  (forall l1 indicator l2 total,
     existsb (present text_lower) l1 = false ->
     str_in indicator text_lower = true ->
     fiction_loop text_lower (l1 ++ indicator :: l2) total = total * (1 # 4)) /\
  (Permutation REAL_CONTENT_WEIGHTS phrases /\
   StronglySorted heavier phrases /\
   forall w, of_weight w phrases = of_weight w REAL_CONTENT_WEIGHTS) /\
  (after_bonus =
   match first_phrase text_lower phrases with
   | Some pb => py_min 1 (after_penalty + snd pb)
   | None => after_penalty
   end) /\
  (forall pb pb',
     first_phrase text_lower phrases = Some pb ->
     In pb' REAL_CONTENT_WEIGHTS -> str_in (fst pb') text_lower = true ->
     snd pb' <= snd pb) /\
  after_bonus <= 1.
Proof.
  intros phrases after_penalty after_bonus.
  assert (Hpen : after_penalty <= 1).
  { unfold after_penalty. rewrite fiction_loop_spec.
    assert (capped text_lower <= 1) by apply py_min_le_l.
    destruct (existsb _ _); lra. }
  repeat split.
  - apply fiction_loop_spec.
  - intros l1 i l2 total H1 Hi. rewrite fiction_loop_spec, existsb_app, H1.
    simpl. unfold present at 1. now rewrite Hi.
  - apply sorted_by_weight_perm.
  - apply sorted_by_weight_sorted.
  - intros w. apply sorted_by_weight_stable.
  - apply bonus_loop_spec.
  - intros pb pb' Hf Hin Hp.
    apply (first_phrase_largest text_lower phrases pb); auto.
    + apply sorted_by_weight_sorted.
    + eapply Permutation_in; [apply sorted_by_weight_perm|exact Hin].
  - unfold after_bonus. rewrite bonus_loop_spec.
    destruct (first_phrase text_lower phrases); [apply py_min_le_l|exact Hpen].
Qed.

End Adjustments.

Lemma score_text_exclusion_witness :
  PyStr.str_in "blood" (PyStr.lower "Blood donation drive after the SHOOTING") = true /\
  capped_keyword_total Sample.KEYWORD_WEIGHTS Sample.FALSE_POSITIVE_EXCLUSIONS
    (PyStr.lower "Blood donation drive after the SHOOTING") = (3 # 10)%Q.
Proof.
  split; [reflexivity|].
  rewrite (proj2 (proj2 (score_text_exclusion
             Sample.KEYWORD_WEIGHTS Sample.FALSE_POSITIVE_EXCLUSIONS
             "Blood donation drive after the SHOOTING" "blood" (6 # 10)%Q
             ["blood donation"; "blood test"]%string "blood donation"
             eq_refl eq_refl (or_introl eq_refl) eq_refl))
           [("murder", 7 # 10)%Q]%string
           [("gore", 1 # 2)%Q; ("stabbing", 1 # 2)%Q; ("shooting", 3 # 10)%Q]%string
           eq_refl).
  reflexivity.
Defined.

Lemma score_text_penalty_and_bonus_once_witness :
  fiction_loop "a film, not a movie: murder" ["zombie"; "movie"; "film"]%string 1%Q
  = (1 * (1 # 4))%Q.
Proof.
  apply (proj1 (proj2 (score_text_penalty_and_bonus_once
           Sample.KEYWORD_WEIGHTS Sample.FALSE_POSITIVE_EXCLUSIONS
           Sample.FICTION_FAKE_INDICATORS Sample.REAL_CONTENT_WEIGHTS
           "a film, not a movie: murder"))
         ["zombie"]%string "movie"%string ["film"]%string 1%Q).
  - reflexivity.
  - reflexivity.
Defined.

(** ** The image score *)

Section ImageScore.
Import PyFloat PyFloatFacts PyMinMaxFacts PyStr Spec.
Local Open Scope Q_scope.

Variable IMAGE_RED_PERCENT_TO_SEVERITY : Q.
Variable requests_get : string -> result response.
Variable Image_open : string -> result (list pixel).

Let percentage_of := _blood_red_percentage requests_get Image_open.
Let gore_score := image_gore_score IMAGE_RED_PERCENT_TO_SEVERITY requests_get Image_open.
Let image_score := score_image_from_url IMAGE_RED_PERCENT_TO_SEVERITY requests_get Image_open.
Let cap := py_max (1 # 100) IMAGE_RED_PERCENT_TO_SEVERITY.

Lemma blood_like_branches p :
  blood_like p = (if is_bright_red p then true else is_dark_red p).
Proof.
  destruct p as [[r g] b].
  unfold blood_like, bright_red, dark_red, is_bright_red, is_dark_red.
  rewrite !Z.gtb_ltb. now destruct (140 <? r)%Z, (g <? 110)%Z, (b <? 110)%Z.
Qed.

Lemma count_loop_spec pixels count :
  count_loop pixels count =
  (count + Z.of_nat (length (List.filter blood_like pixels)))%Z.
Proof.
  revert count. induction pixels as [|p l IH]; intros count; simpl; [lia|].
  rewrite blood_like_branches.
  destruct (is_bright_red p); [|destruct (is_dark_red p)];
    rewrite IH; simpl length; lia.
Qed.

Lemma percentage_spec pixels :
  percentage (count_loop pixels 0) (Z.of_nat (length pixels)) = blood_percentage pixels.
Proof.
  rewrite count_loop_spec, Z.add_0_l.
  destruct pixels as [|p l]; reflexivity.
Qed.

Lemma inject_Z_pos n : (0 < n)%Z -> 0 < inject_Z n.
Proof. intros H. unfold Qlt. simpl. lia. Qed.

Lemma blood_percentage_nonneg pixels : 0 <= blood_percentage pixels.
Proof.
  destruct pixels as [|p l]; [simpl; lra|].
  unfold blood_percentage.
  set (c := Z.of_nat _). set (n := Z.of_nat (length (p :: l))).
  assert (Hc : 0 <= inject_Z c) by (unfold Qle; simpl; lia).
  assert (Hn : 0 < inject_Z n) by (apply inject_Z_pos; subst n; simpl length; lia).
  assert (0 <= inject_Z c / inject_Z n).
  { apply Qle_shift_div_l; [exact Hn|lra]. }
  lra.
Qed.

Lemma blood_percentage_all pixels :
  pixels <> [] -> forallb blood_like pixels = true -> blood_percentage pixels == 100.
Proof.
  intros Hne Hall.
  assert (Hf : List.filter blood_like pixels = pixels).
  { clear Hne. induction pixels as [|p l IH]; simpl in *; [reflexivity|].
    apply andb_true_iff in Hall as [-> Hl]. now rewrite IH. }
  destruct pixels as [|p l]; [congruence|].
  unfold blood_percentage. rewrite Hf.
  set (n := Z.of_nat (length (p :: l))).
  assert (Hn : 0 < inject_Z n) by (apply inject_Z_pos; subst n; simpl length; lia).
  field. lra.
Qed.

Lemma cap_pos : 1 # 100 <= cap.
Proof. apply py_max_ge_l. Qed.

Lemma truediv_cap pct : truediv pct cap = Ok (pct / cap).
Proof.
  unfold truediv. pose proof cap_pos.
  cmp_cases (eqb cap 0); [lra|reflexivity].
Qed.

(** The three ways [_blood_red_percentage] can end. *)
Lemma blood_red_percentage_cases url :
  (exists resp pixels,
     requests_get url = Ok resp /\ error_status resp = false /\
     Image_open (content resp) = Ok pixels /\
     percentage_of url = Ok (true, blood_percentage pixels)) \/
  percentage_of url = Ok (false, 0).
Proof.
  unfold percentage_of, _blood_red_percentage, raise_for_status, error_status.
  destruct (requests_get url) as [resp|e] eqn:Hget; simpl; [|now right].
  destruct ((400 <=? status_code resp)%Z && (status_code resp <? 600)%Z) eqn:E;
    simpl; [now right|].
  destruct (Image_open (content resp)) as [pixels|e] eqn:Himg; simpl; [|now right].
  left. exists resp, pixels. rewrite percentage_spec. repeat split; auto.
Qed.

Lemma gore_score_of_percentage url success pct :
  percentage_of url = Ok (success, pct) ->
  gore_score url = Ok (py_min 1 (pct / cap)).
Proof.
  intros H. unfold gore_score, image_gore_score.
  fold percentage_of. rewrite H. simpl. fold cap.
  now rewrite truediv_cap.
Qed.

Lemma image_score_of_gore_score url raw :
  gore_score url = Ok raw -> image_score url = Ok (py_min 1 (py_max 0 raw)).
Proof.
  intros H. unfold image_score, score_image_from_url. fold gore_score.
  now rewrite H.
Qed.

Lemma unit_min_max raw : 0 <= py_min 1 (py_max 0 raw) <= 1.
Proof.
  split; [|apply py_min_le_l].
  pose proof (py_max_ge_l 0 raw).
  destruct (py_min_spec 1 (py_max 0 raw)) as [[? ->]|[? ->]]; lra.
Qed.

Lemma ratio_nonneg pct : 0 <= pct -> 0 <= pct / cap.
Proof.
  intros H. pose proof cap_pos.
  apply Qle_shift_div_l; lra.
Qed.

Lemma image_score_failed url :
  percentage_of url = Ok (false, 0) -> image_score url = Ok 0.
Proof.
  intros H. rewrite (image_score_of_gore_score url _ (gore_score_of_percentage _ _ _ H)).
  reflexivity.
Qed.

(** C4: for an image that is fetched and decoded, the percentage is the
    share of blood-like pixels times 100 (0.0 without pixels) and the score
    is [min(1.0, percentage / max(0.01, reference))]; with the reference at
    25, an image of bright-red pixels only scores exactly 1.0. *)
Theorem image_score_formula (url : string) (resp : response) (pixels : list pixel) :
  requests_get url = Ok resp ->
  error_status resp = false ->
  Image_open (content resp) = Ok pixels ->
  let pct := blood_percentage pixels in
  let score := py_min 1 (pct / py_max (1 # 100) IMAGE_RED_PERCENT_TO_SEVERITY) in
  percentage_of url = Ok (true, pct) /\
  gore_score url = Ok score /\
  (exists v, image_score url = Ok v /\ v == score) /\
  (pixels = [] -> pct = 0) /\
  (IMAGE_RED_PERCENT_TO_SEVERITY == 25 -> pixels <> [] ->
   forallb bright_red pixels = true ->
   gore_score url = Ok 1 /\ image_score url = Ok 1).
Proof.
  intros Hget Hst Himg pct score.
  assert (Hp : percentage_of url = Ok (true, pct)).
  { unfold percentage_of, _blood_red_percentage, raise_for_status.
    unfold error_status in Hst. rewrite Hget. simpl. rewrite Hst. simpl.
    rewrite Himg. simpl. now rewrite percentage_spec. }
  assert (Hg : gore_score url = Ok score) by exact (gore_score_of_percentage _ _ _ Hp).
  split; [exact Hp|]. split; [exact Hg|]. split; [|split].
  - exists (py_min 1 (py_max 0 score)).
    split; [now apply image_score_of_gore_score|].
    assert (0 <= score <= 1).
    { split; [|apply py_min_le_l].
      pose proof (ratio_nonneg pct (blood_percentage_nonneg pixels)) as Hr.
      fold cap in score.
      destruct (py_min_spec 1 (pct / cap)) as [[? E]|[? E]]; unfold score; rewrite E; lra. }
    destruct (py_max_spec 0 score) as [[? E]|[? E]]; rewrite E;
      destruct (py_min_spec 1 score) as [[? E']|[? E']];
      try (rewrite E'); try lra.
    unfold py_min. cmp_cases (ltb 0 1); lra.
  - intros ->. reflexivity.
  - intros Href Hne Hall.
    assert (Hs : score = 1).
    { apply py_min_1_ge.
      assert (Hb : forallb blood_like pixels = true).
      { rewrite forallb_forall in *. intros p Hin. unfold blood_like.
        now rewrite (Hall p Hin). }
      pose proof (blood_percentage_all pixels Hne Hb) as E. fold pct in E.
      assert (Hc : py_max (1 # 100) IMAGE_RED_PERCENT_TO_SEVERITY
                   = IMAGE_RED_PERCENT_TO_SEVERITY).
      { unfold py_max. cmp_cases (ltb (1 # 100) IMAGE_RED_PERCENT_TO_SEVERITY);
          [reflexivity|lra]. }
      rewrite Hc, E, Href. now apply Qle_bool_iff. }
    rewrite Hs in Hg. split; [exact Hg|].
    now rewrite (image_score_of_gore_score url 1 Hg).
Qed.

Lemma gore_score_total url : exists v, gore_score url = Ok v /\ 0 <= v <= 1.
Proof.
  assert (exists b pct, percentage_of url = Ok (b, pct) /\ 0 <= pct)
    as (b & pct & Hp & Hpct).
  { destruct (blood_red_percentage_cases url) as [(resp & pixels & _ & _ & _ & H)|H].
    - eexists _, _. split; [exact H|apply blood_percentage_nonneg].
    - eexists _, _. split; [exact H|lra]. }
  eexists. split; [exact (gore_score_of_percentage _ _ _ Hp)|].
  split; [|apply py_min_le_l].
  pose proof (ratio_nonneg pct Hpct).
  destruct (py_min_spec 1 (pct / cap)) as [[? ->]|[? ->]]; lra.
Qed.

Lemma image_score_total url : exists v, image_score url = Ok v /\ 0 <= v <= 1.
Proof.
  destruct (gore_score_total url) as (raw & Hraw & _).
  eexists. split; [exact (image_score_of_gore_score _ _ Hraw)|apply unit_min_max].
Qed.

(** C3, as the code has it: [score_image_from_url] always returns a
    score, never an exception, and the score is in [[0, 1]]; it is 0.0
    when the request raises, when the status is one for which
    [raise_for_status] raises (400 to 599) and when the content is not an
    image; a response of any other status is scored from its body like a
    response of status 200. *)
Theorem score_image_from_url_soft_failure (url : string) :
  (exists v, image_score url = Ok v /\ 0 <= v <= 1) /\
  (exists v, gore_score url = Ok v /\ 0 <= v <= 1) /\
  (forall e, requests_get url = Raise e -> image_score url = Ok 0) /\
  (forall resp, requests_get url = Ok resp -> error_status resp = true ->
     image_score url = Ok 0) /\
  (forall resp e, requests_get url = Ok resp ->
     Image_open (content resp) = Raise e -> image_score url = Ok 0) /\
  (forall resp pixels, requests_get url = Ok resp -> error_status resp = false ->
     Image_open (content resp) = Ok pixels ->
     image_score url
     = Ok (py_min 1 (py_max 0 (py_min 1 (blood_percentage pixels / cap))))).
Proof.
  split; [apply image_score_total|]. split; [apply gore_score_total|].
  split; [|split; [|split]]; [| | |intros resp pixels Hr He Hi].
  4: {
    apply image_score_of_gore_score.
    apply (gore_score_of_percentage url true).
    unfold percentage_of, _blood_red_percentage, raise_for_status.
    unfold error_status in He. rewrite Hr. simpl. rewrite He. simpl.
    rewrite Hi. simpl. now rewrite percentage_spec. }
  - intros e He. apply image_score_failed.
    unfold percentage_of, _blood_red_percentage. now rewrite He.
  - intros resp Hr He. apply image_score_failed.
    unfold percentage_of, _blood_red_percentage, raise_for_status.
    unfold error_status in He. rewrite Hr. simpl. now rewrite He.
  - intros resp e Hr He. apply image_score_failed.
    unfold percentage_of, _blood_red_percentage, raise_for_status.
    rewrite Hr. simpl.
    destruct (_ && _); simpl; [reflexivity|]. now rewrite He.
Qed.

End ImageScore.

Lemma image_score_formula_witness :
  Sample.requests_get "http://img.example/red.png"
    = Ok {| status_code := 200; content := "red" |} /\
  Sample.score_image_from_url "http://img.example/red.png" = Ok 1%Q.
Proof.
  split; [reflexivity|].
  apply (proj2 (proj2 (proj2 (proj2 (image_score_formula
           Sample.IMAGE_RED_PERCENT_TO_SEVERITY Sample.requests_get Sample.Image_open
           "http://img.example/red.png" {| status_code := 200; content := "red" |}
           (repeat Sample.red 4) eq_refl eq_refl eq_refl))))).
  - reflexivity.
  - discriminate.
  - reflexivity.
Defined.

(** C3, as stated, fails for a status that is neither a success nor an
    HTTP error: a response 300 whose body is an image of red pixels is
    scored 1.0, not 0.0. *)
Lemma score_image_from_url_status_counterexample :
  Sample2.choices_get "http://img.example/choices"
    = Ok {| status_code := 300; content := "red" |} /\
  ~ (200 <= 300 <= 299)%Z /\
  score_image_from_url Sample.IMAGE_RED_PERCENT_TO_SEVERITY Sample2.choices_get
    Sample.Image_open "http://img.example/choices" = Ok 1%Q /\
  score_image_from_url Sample.IMAGE_RED_PERCENT_TO_SEVERITY Sample2.choices_get
    Sample.Image_open "http://img.example/choices" <> Ok 0%Q.
Proof.
  split; [reflexivity|]. split; [lia|].
  split; [reflexivity|discriminate].
Qed.

Lemma score_image_from_url_soft_failure_witness :
  Sample.requests_get "http://img.example/gone.png"
    = Ok {| status_code := 404; content := "not found" |} /\
  Sample.score_image_from_url "http://img.example/gone.png" = Ok 0%Q.
Proof.
  split; [reflexivity|].
  apply (proj1 (proj2 (proj2 (proj2 (score_image_from_url_soft_failure
           Sample.IMAGE_RED_PERCENT_TO_SEVERITY Sample.requests_get Sample.Image_open
           "http://img.example/gone.png"))))
         {| status_code := 404; content := "not found" |}).
  - reflexivity.
  - reflexivity.
Defined.

(** ** [score_article] *)

Section ScoreArticle.
Import PyFloat PyFloatFacts PyMinMaxFacts PyStr Spec.
Local Open Scope Q_scope.

Variable KEYWORD_WEIGHTS : list (string * Q).
Variable FALSE_POSITIVE_EXCLUSIONS : gmap string (list string).
Variable FICTION_FAKE_INDICATORS : list string.
Variable REAL_CONTENT_WEIGHTS : list (string * Q).
Variable IMAGE_RED_PERCENT_TO_SEVERITY : Q.
Variable requests_get : string -> result response.
Variable Image_open : string -> result (list pixel).

Let text_score := score_text KEYWORD_WEIGHTS FALSE_POSITIVE_EXCLUSIONS
                    FICTION_FAKE_INDICATORS REAL_CONTENT_WEIGHTS.
Let image_score := score_image_from_url IMAGE_RED_PERCENT_TO_SEVERITY requests_get Image_open.
Let article_score := score_article KEYWORD_WEIGHTS FALSE_POSITIVE_EXCLUSIONS
                       FICTION_FAKE_INDICATORS REAL_CONTENT_WEIGHTS
                       IMAGE_RED_PERCENT_TO_SEVERITY requests_get Image_open.

Lemma or_empty_missing (a : article) key :
  a !! key = None \/ a !! key = Some None -> or_empty (article_get a key) = EmptyString.
Proof. unfold article_get. now intros [-> | ->]. Qed.

Lemma or_empty_present (a : article) key v :
  a !! key = Some (Some v) -> or_empty (article_get a key) = v.
Proof. unfold article_get. now intros ->. Qed.

(** C2: the text score is the one of [title + " " + description], a field
    that is missing or [None] counting as the empty string; it is returned
    as it is when [include_image] is false and when the image URL is
    missing, [None] or empty; otherwise the result is
    [max(text_score, image_score)], which is 0.7 for 0.3 and 0.7. *)
Theorem score_article_max (a : article) (include_image : bool) :
  let title := or_empty (article_get a "title") in
  let desc := or_empty (article_get a "description") in
  let text := text_score (title ++ " " ++ desc) in
  (forall key, a !! key = None \/ a !! key = Some None ->
     or_empty (article_get a key) = EmptyString) /\
  (forall key v, a !! key = Some (Some v) -> or_empty (article_get a key) = v) /\
  (include_image = false -> article_score a include_image = Ok text) /\
  (a !! "urlToImage" = None \/ a !! "urlToImage" = Some None \/
   a !! "urlToImage" = Some (Some EmptyString) ->
   article_score a include_image = Ok text) /\
  (forall image_url,
     include_image = true ->
     a !! "urlToImage" = Some (Some image_url) -> image_url <> EmptyString ->
     exists img,
       image_score image_url = Ok img /\
       article_score a include_image = Ok (py_max text img) /\
       (text == 3 # 10 -> img == 7 # 10 -> py_max text img == 7 # 10)).
Proof.
  intros title desc text.
  split; [intros key; apply or_empty_missing|].
  split; [intros key v; apply or_empty_present|].
  unfold article_score, score_article. fold text_score title desc text.
  repeat split.
  - now intros ->.
  - intros H. destruct include_image; simpl; [|reflexivity].
    unfold article_get.
    destruct H as [-> | [-> | ->]]; reflexivity.
  - intros image_url -> Hu Hne. simpl.
    destruct (image_score_total IMAGE_RED_PERCENT_TO_SEVERITY requests_get
                Image_open image_url) as (img & Himg & _).
    exists img. fold image_score in Himg.
    rewrite (or_empty_present a _ _ Hu).
    unfold article_get. rewrite Hu.
    unfold falsy. simpl or_empty.
    destruct image_url as [|c u]; [congruence|]. simpl.
    fold image_score. rewrite Himg. simpl.
    repeat split; auto.
    intros Ht Hi.
    destruct (py_max_spec text img) as [[? ->]|[? ->]]; lra.
Qed.

End ScoreArticle.

Lemma score_article_max_witness :
  exists img,
    Sample.score_image_from_url "http://img.example/scene.png" = Ok img /\
    Sample.score_article Sample.news true
      = Ok (PyFloat.py_max (Sample.score_text "Shooting downtown ") img) /\
    (Sample.score_text "Shooting downtown " == 3 # 10 -> img == 7 # 10 ->
     PyFloat.py_max (Sample.score_text "Shooting downtown ") img == 7 # 10)%Q.
Proof.
  apply (proj2 (proj2 (proj2 (proj2 (score_article_max
           Sample.KEYWORD_WEIGHTS Sample.FALSE_POSITIVE_EXCLUSIONS
           Sample.FICTION_FAKE_INDICATORS Sample.REAL_CONTENT_WEIGHTS
           Sample.IMAGE_RED_PERCENT_TO_SEVERITY Sample.requests_get
           Sample.Image_open Sample.news true))))
         "http://img.example/scene.png"%string).
  - reflexivity.
  - reflexivity.
  - discriminate.
Defined.

(** ** [clamp_severity_display] *)

Section DisplayClamp.
Import PyFloat PyFloatFacts PyMinMaxFacts Spec.
Local Open Scope Q_scope.

Variable SEVERITY_MIN SEVERITY_MAX : Q.

Let to_display := clamp_severity_display SEVERITY_MIN SEVERITY_MAX.

Lemma round_half_even_near x :
  - (1 # 2) <= x - inject_Z (round_half_even x) <= 1 # 2.
Proof.
  unfold round_half_even.
  pose proof (Qfloor_le x) as Hlo. pose proof (Qlt_floor x) as Hhi.
  rewrite inject_Z_plus in Hhi. change (inject_Z 1) with 1 in Hhi.
  cmp_cases (ltb (x - inject_Z (Qfloor x)) (1 # 2)); [lra|].
  cmp_cases (ltb (1 # 2) (x - inject_Z (Qfloor x))).
  - rewrite inject_Z_plus. change (inject_Z 1) with 1. lra.
  - destruct (Z.even (Qfloor x)); [lra|].
    rewrite inject_Z_plus. change (inject_Z 1) with 1. lra.
Qed.

(** [round(x, 2)] is a multiple of 0.01 at most 0.005 away from [x]. *)
Lemma py_round2_near x :
  (exists n : Z, py_round2 x = inject_Z n / 100) /\
  - (1 # 200) <= x - py_round2 x <= 1 # 200.
Proof.
  split; [eexists; reflexivity|].
  unfold py_round2. pose proof (round_half_even_near (x * 100)) as H.
  set (r := inject_Z (round_half_even (x * 100))) in *.
  assert (E : r / 100 == r * (1 # 100)) by (unfold Qdiv; reflexivity).
  rewrite E. lra.
Qed.

(** C9, as the code has it: the input is rounded to two decimals and the
    rounded value is clamped with [max(min_, min(max_, _))]; when
    [min_ <= max_] every output is in [[min_, max_]]; when [0 < min_ <= max_]
    the score 0.0 is displayed as [min_]; and when [min_ <= max_ <= 1.0]
    the score 1.0 is displayed as [max_]. *)
Theorem clamp_severity_display_bounds (score : Q) :
  to_display score = py_max SEVERITY_MIN (py_min SEVERITY_MAX (py_round2 score)) /\
  ((exists n : Z, py_round2 score = inject_Z n / 100) /\
   - (1 # 200) <= score - py_round2 score <= 1 # 200) /\
  (SEVERITY_MIN <= SEVERITY_MAX ->
   SEVERITY_MIN <= to_display score <= SEVERITY_MAX) /\
  (0 < SEVERITY_MIN -> SEVERITY_MIN <= SEVERITY_MAX ->
   to_display 0 = SEVERITY_MIN) /\
  (SEVERITY_MIN <= SEVERITY_MAX -> SEVERITY_MAX <= 1 ->
   to_display 1 == SEVERITY_MAX).
Proof.
  split; [reflexivity|]. split; [apply py_round2_near|].
  unfold to_display, clamp_severity_display. repeat split.
  - now apply clamp_range.
  - now apply clamp_range.
  - intros Hmin Hle.
    change (py_round2 0) with (0 # 100).
    unfold py_min. cmp_cases (ltb (0 # 100) SEVERITY_MAX); [|lra].
    unfold py_max. cmp_cases (ltb SEVERITY_MIN (0 # 100)); [lra|reflexivity].
  - intros Hle Hmax.
    change (py_round2 1) with (100 # 100).
    unfold py_min. cmp_cases (ltb (100 # 100) SEVERITY_MAX); [lra|].
    unfold py_max. cmp_cases (ltb SEVERITY_MIN SEVERITY_MAX); lra.
Qed.

End DisplayClamp.

Lemma clamp_severity_display_bounds_witness :
  (0 < Sample.SEVERITY_MIN)%Q /\
  (Sample.SEVERITY_MIN <= Sample.SEVERITY_MAX)%Q /\
  clamp_severity_display Sample.SEVERITY_MIN Sample.SEVERITY_MAX 0 = Sample.SEVERITY_MIN.
Proof.
  split; [reflexivity|]. split; [discriminate|].
  apply (proj1 (proj2 (proj2 (proj2 (clamp_severity_display_bounds
           Sample.SEVERITY_MIN Sample.SEVERITY_MAX 0))))).
  - reflexivity.
  - discriminate.
Defined.

(** C9, as stated, fails when the upper bound is above 1.0: with the
    bounds 0.5 and 2.0 the score 1.0 is displayed as 1.0, not as 2.0. *)
Lemma clamp_severity_display_counterexample :
  (0 < 1 # 2)%Q /\ (1 # 2 <= 2)%Q /\
  (clamp_severity_display (1 # 2) 2 1 == 1)%Q /\
  ~ (clamp_severity_display (1 # 2) 2 1 == 2)%Q.
Proof.
  split; [reflexivity|]. split; [discriminate|].
  split; [reflexivity|discriminate].
Qed.

(** ** [insert] *)

Section Insert.
Import PyFloat PyFloatFacts PyMinMaxFacts Database.
Local Open Scope Q_scope.

Lemma insert_or_replace_range d row :
  severities_in_range d ->
  0 <= severity_score (row (last_id d + 1)%Z) <= 1 ->
  severities_in_range (insert_or_replace d row).
Proof.
  unfold severities_in_range, insert_or_replace. simpl.
  intros Hd Hrow. apply List.Forall_app. split.
  - rewrite List.Forall_forall in *. intros r [Hr _]%filter_In. now apply Hd.
  - now constructor.
Qed.

Lemma apply_call_range d c : severities_in_range d -> severities_in_range (apply_call d c).
Proof.
  intros Hd. apply insert_or_replace_range; [exact Hd|].
  simpl. apply clamp_range. lra.
Qed.

Lemma insert_all_range calls d :
  severities_in_range d -> severities_in_range (insert_all d calls).
Proof.
  unfold insert_all. revert d.
  induction calls as [|c l IH]; intros d Hd; simpl; [exact Hd|].
  apply IH. now apply apply_call_range.
Qed.

(** C10: [insert] stores [max(0.0, min(1.0, severity_score))], a value of
    [[0, 1]] that is 1.0 for a score above 1.0 and 0.0 for a score below
    0.0; a table whose severities are in [[0, 1]] keeps that property, and
    so does every table filled by calls of [insert] only. *)
Theorem insert_keeps_severity_in_range (d : db) (now url_ : string)
    (source_name_ media_type_ : option string) (severity_score_ : Q)
    (title_ published_at_ snippet_ : option string) :
  let d' := insert d now url_ source_name_ media_type_ severity_score_
              title_ published_at_ snippet_ in
  (exists kept row,
     findings d' = kept ++ [row] /\
     (forall r, In r kept -> In r (findings d)) /\
     severity_score row = py_max 0 (py_min 1 severity_score_) /\
     0 <= severity_score row <= 1 /\
     (1 < severity_score_ -> severity_score row = 1) /\
     (severity_score_ < 0 -> severity_score row = 0) /\
     (0 <= severity_score_ <= 1 -> severity_score row == severity_score_)) /\
  (severities_in_range d -> severities_in_range d') /\
  (forall calls, severities_in_range (insert_all empty_db calls)).
Proof.
  intros d'. split; [|split].
  - eexists _, _. split; [reflexivity|]. simpl. repeat split.
    + intros r [Hr _]%filter_In. exact Hr.
    + apply py_max_ge_l.
    + destruct (clamp_range 0 1 severity_score_); [lra|assumption].
    + intros H. unfold py_min. cmp_cases (ltb severity_score_ 1); [lra|reflexivity].
    + intros H. unfold py_min. cmp_cases (ltb severity_score_ 1); [|lra].
      unfold py_max. cmp_cases (ltb 0 severity_score_); [lra|reflexivity].
    + apply clamp_id.
  - intros Hd. apply insert_or_replace_range; [exact Hd|].
    simpl. apply clamp_range. lra.
  - intros calls. apply insert_all_range. constructor.
Qed.

End Insert.

Lemma insert_keeps_severity_in_range_witness :
  Database.severities_in_range Database.empty_db /\
  Database.severities_in_range
    (Database.insert Database.empty_db "2024-05-01T10:00:00Z" "http://news.example/a"
       (Some "newsapi") None (5 # 2) (Some "Shooting downtown") None None).
Proof.
  split; [constructor|].
  apply (proj1 (proj2 (insert_keeps_severity_in_range
           Database.empty_db "2024-05-01T10:00:00Z" "http://news.example/a"
           (Some "newsapi") None (5 # 2) (Some "Shooting downtown") None None))).
  constructor.
Defined.

(** ** [score_to_color] *)

Section ColorMapper.
Import PyFloat PyFloatFacts PyMinMaxFacts PyStr Spec.
Local Open Scope Q_scope.

(** *** Truncation *)

Lemma py_int_floor x : 0 <= x -> py_int x = Qfloor x.
Proof.
  destruct x as [n d]. unfold py_int, Qle. simpl. intros H.
  apply Z.quot_div_nonneg; lia.
Qed.

Lemma py_int_ceiling x : x <= 0 -> py_int x = Qceiling x.
Proof.
  destruct x as [n d]. unfold py_int, Qceiling, Qle. simpl. intros H.
  rewrite <- (Z.opp_involutive n) at 1.
  rewrite Z.quot_opp_l by lia. f_equal.
  apply Z.quot_div_nonneg; lia.
Qed.

Lemma py_int_comp x y : x == y -> py_int x = py_int y.
Proof.
  intros E. destruct (Qlt_le_dec x 0) as [H|H].
  - rewrite !py_int_ceiling by lra. now rewrite E.
  - rewrite !py_int_floor by lra. now rewrite E.
Qed.

Lemma py_int_inject_Z n : py_int (inject_Z n) = n.
Proof. unfold py_int. simpl. apply Z.quot_1_r. Qed.

(** For a value that is not negative, [int] rounds down. *)
Lemma py_int_truncates x :
  0 <= x -> inject_Z (py_int x) <= x < inject_Z (py_int x) + 1.
Proof.
  intros H. rewrite py_int_floor by exact H. split.
  - apply Qfloor_le.
  - pose proof (Qlt_floor x) as Hlt. rewrite inject_Z_plus in Hlt. exact Hlt.
Qed.

Lemma py_int_mono x y : 0 <= x -> x <= y -> (py_int x <= py_int y)%Z.
Proof.
  intros Hx Hxy. rewrite !py_int_floor by lra. now apply Qfloor_resp_le.
Qed.

Lemma inject_Z_le a b : (a <= b)%Z -> inject_Z a <= inject_Z b.
Proof. intros H. now rewrite <- Zle_Qle. Qed.

Lemma inject_Z_sub a b : inject_Z (a - b) = inject_Z a - inject_Z b.
Proof. unfold Z.sub. now rewrite inject_Z_plus, inject_Z_opp. Qed.

(** Between two channels, the interpolated channel is a channel. *)
Lemma lerp_channel_range a b t :
  is_channel a = true -> is_channel b = true -> 0 <= t <= 1 ->
  is_channel (lerp_channel a b t) = true /\
  inject_Z (lerp_channel a b t) <= inject_Z a + inject_Z (b - a) * t
    < inject_Z (lerp_channel a b t) + 1.
Proof.
  unfold is_channel. intros Ha Hb Ht.
  apply andb_true_iff in Ha as [Ha0 Ha1]. apply andb_true_iff in Hb as [Hb0 Hb1].
  apply Z.leb_le in Ha0, Ha1, Hb0, Hb1.
  set (x := inject_Z a + inject_Z (b - a) * t).
  pose proof (inject_Z_le _ _ Ha0) as Qa0. pose proof (inject_Z_le _ _ Ha1) as Qa1.
  pose proof (inject_Z_le _ _ Hb0) as Qb0. pose proof (inject_Z_le _ _ Hb1) as Qb1.
  assert (Hx : 0 <= x <= 255).
  { unfold x. rewrite inject_Z_sub.
    change (inject_Z 0) with 0 in *. change (inject_Z 255) with 255 in *.
    split; nra. }
  unfold lerp_channel. fold x. split; [|now apply py_int_truncates].
  apply andb_true_iff. split; apply Z.leb_le.
  - change 0%Z with (py_int 0). apply py_int_mono; lra.
  - change 255%Z with (py_int 255). apply py_int_mono; lra.
Qed.

Lemma lerp_channel_end a b t : t == 1 -> lerp_channel a b t = b.
Proof.
  intros E. unfold lerp_channel. rewrite <- (py_int_inject_Z b) at 2.
  apply py_int_comp. rewrite E, inject_Z_sub. lra.
Qed.


(** *** Reading back what [format_color] writes *)

Lemma reads_back_all : forallb reads_back (map Z.of_nat (seq 0 256)) = true.
Proof. vm_compute. reflexivity. Qed.

Lemma reads_back_channel n : is_channel n = true -> reads_back n = true.
Proof.
  unfold is_channel. intros [H0 H1]%andb_true_iff.
  apply Z.leb_le in H0, H1.
  pose proof reads_back_all as H. rewrite forallb_forall in H.
  apply H. rewrite <- (Z2Nat.id n) by exact H0.
  apply in_map, in_seq. lia.
Qed.

Lemma lstrip_hash_other c s :
  Ascii.eqb c "#" = false -> lstrip_hash (String c s) = String c s.
Proof.
  destruct c as [[] [] [] [] [] [] [] []]; intros H; try reflexivity; discriminate H.
Qed.

Lemma format_02X_channel n :
  is_channel n = true ->
  exists c1 c2,
    format_02X n = String c1 (String c2 EmptyString) /\
    Ascii.eqb c1 "#" = false /\
    int16 (String c1 (String c2 EmptyString)) = Ok n.
Proof.
  intros H. apply reads_back_channel in H. unfold reads_back in H.
  destruct (format_02X n) as [|c1 [|c2 [|]]]; try discriminate H.
  apply andb_true_iff in H as [Hc H]. apply negb_true_iff in Hc.
  destruct (int16 (String c1 (String c2 EmptyString))) as [m|] eqn:E;
    [|discriminate H].
  apply Z.eqb_eq in H. subst m. eauto.
Qed.

Lemma parse_format_color r g b :
  is_channel r = true -> is_channel g = true -> is_channel b = true ->
  parse (format_color r g b) = Ok (r, g, b).
Proof.
  intros Hr Hg Hb.
  destruct (format_02X_channel r Hr) as (r1 & r2 & Er & Hr1 & Ir).
  destruct (format_02X_channel g Hg) as (g1 & g2 & Eg & _ & Ig).
  destruct (format_02X_channel b Hb) as (b1 & b2 & Eb & _ & Ib).
  unfold parse, format_color. rewrite Er, Eg, Eb.
  change (lstrip_hash (String "#" ?s)) with (lstrip_hash s).
  cbv [String.append]. rewrite (lstrip_hash_other r1 _ Hr1).
  change (slice 0 2 _) with (String r1 (String r2 EmptyString)).
  change (slice 2 4 _) with (String g1 (String g2 EmptyString)).
  change (slice 4 6 _) with (String b1 (String b2 EmptyString)).
  rewrite Ir, Ig, Ib. reflexivity.
Qed.

(** *** The search of the bracket *)




Lemma last_anchor_snoc l z : last_anchor (l ++ [z]) = Ok z.
Proof. unfold last_anchor. now rewrite rev_app_distr. Qed.

Lemma last_anchor_cases anchors :
  anchors <> [] -> exists l z, anchors = l ++ [z] /\ last_anchor anchors = Ok z.
Proof.
  intros H. destruct (exists_last H) as (l & z & ->).
  exists l, z. split; [reflexivity|apply last_anchor_snoc].
Qed.












End ColorMapper.



(** With two anchors of the same score, the colour at that score is the
    one of the first of them. *)
Lemma score_to_color_equal_scores :
  score_to_color
    [(0%Q, "#000000"%string); ((1 # 2)%Q, "#FF0000"%string);
     ((1 # 2)%Q, "#00FF00"%string); (1%Q, "#FFFFFF"%string)]
    (1 # 2) = Ok "#FF0000"%string.
Proof. reflexivity. Qed.

(** * Further properties *)

(** ** [score_text] beyond the claims *)

Section ScoreTextMore.
Import PyFloat PyFloatFacts PyMinMaxFacts PyStr Spec Spec2.
Local Open Scope Q_scope.

Variable KEYWORD_WEIGHTS : list (string * Q).
Variable FALSE_POSITIVE_EXCLUSIONS : gmap string (list string).
Variable FICTION_FAKE_INDICATORS : list string.
Variable REAL_CONTENT_WEIGHTS : list (string * Q).

Let capped := capped_keyword_total KEYWORD_WEIGHTS FALSE_POSITIVE_EXCLUSIONS.

Lemma is_space_lower c : is_space (lower_char c) = is_space c.
Proof. destruct c as [[] [] [] [] [] [] [] []]; reflexivity. Qed.

Lemma blank_lower s : blank (lower s) = blank s.
Proof.
  induction s as [|c s IH]; simpl; [reflexivity|].
  now rewrite is_space_lower, IH.
Qed.

Lemma strip_empty_blank s : is_empty (strip s) = blank s.
Proof.
  unfold strip. induction s as [|c s IH]; simpl; [reflexivity|].
  destruct (is_space c) eqn:E; simpl; [exact IH|].
  now rewrite E.
Qed.

Lemma blank_guard s : is_empty s || is_empty (strip s) = blank s.
Proof. rewrite strip_empty_blank. now destruct s. Qed.

(** [score_text] on a text that is not blank. *)
Lemma score_text_unfold KW EX FI RC s :
  score_text KW EX FI RC s =
  if blank s then 0
  else py_max 0 (py_min 1
         (bonus_loop (lower s) (sorted_by_weight RC)
            (fiction_loop (lower s) FI (capped_keyword_total KW EX (lower s))))).
Proof. unfold score_text. now rewrite blank_guard. Qed.

(** X1: the score does not depend on the case of the letters: two texts
    with the same lower-case form have the same score. *)
Theorem score_text_case_insensitive (s1 s2 : string) :
  lower s1 = lower s2 ->
  score_text KEYWORD_WEIGHTS FALSE_POSITIVE_EXCLUSIONS FICTION_FAKE_INDICATORS
    REAL_CONTENT_WEIGHTS s1
  = score_text KEYWORD_WEIGHTS FALSE_POSITIVE_EXCLUSIONS FICTION_FAKE_INDICATORS
      REAL_CONTENT_WEIGHTS s2.
Proof.
  intros E. rewrite !score_text_unfold, E.
  now rewrite <- (blank_lower s1), <- (blank_lower s2), E.
Qed.

Lemma py_min_mono a x y : x <= y -> py_min a x <= py_min a y.
Proof.
  intros H.
  destruct (py_min_spec a x) as [[? ->]|[? ->]];
    destruct (py_min_spec a y) as [[? ->]|[? ->]]; lra.
Qed.

Lemma py_max_mono a x y : x <= y -> py_max a x <= py_max a y.
Proof.
  intros H.
  destruct (py_max_spec a x) as [[? ->]|[? ->]];
    destruct (py_max_spec a y) as [[? ->]|[? ->]]; lra.
Qed.

Lemma clamp_mono lo hi x y :
  x <= y -> py_max lo (py_min hi x) <= py_max lo (py_min hi y).
Proof. intros H. now apply py_max_mono, py_min_mono. Qed.

Lemma keyword_loop_nonneg EX text_lower l total :
  nonneg_weights l = true -> 0 <= total -> 0 <= keyword_loop EX text_lower l total.
Proof.
  revert total. induction l as [|kw l IH]; intros total Hl Ht; [exact Ht|].
  simpl in Hl. apply andb_true_iff in Hl as [Hkw Hl]. apply leb_le in Hkw.
  rewrite keyword_loop_cons.
  destruct (contributes EX text_lower kw); [|now apply IH].
  destruct (leb 1 (total + snd kw)); [lra|apply IH; [exact Hl|lra]].
Qed.

Lemma capped_nonneg KW EX text_lower :
  nonneg_weights KW = true -> 0 <= capped_keyword_total KW EX text_lower <= 1.
Proof.
  intros H. split; [|apply py_min_le_l].
  unfold capped_keyword_total.
  assert (0 <= keyword_loop EX text_lower (sorted_by_weight KW) 0).
  { apply keyword_loop_nonneg; [|lra].
    eapply nonneg_weights_perm; [apply sorted_by_weight_perm|exact H]. }
  destruct (py_min_spec 1 (keyword_loop EX text_lower (sorted_by_weight KW) 0))
    as [[? ->]|[? ->]]; lra.
Qed.

Lemma bonus_loop_mono text_lower items t1 t2 :
  t1 <= t2 -> bonus_loop text_lower items t1 <= bonus_loop text_lower items t2.
Proof.
  intros H. rewrite !bonus_loop_spec.
  destruct (first_phrase text_lower items); [|exact H].
  apply py_min_mono. lra.
Qed.

(** X2: with weights that are not negative, a fiction indicator never
    raises the score: the score is at most the one obtained without any
    indicator. *)
Theorem fiction_penalty_never_raises (s : string) :
  nonneg_weights KEYWORD_WEIGHTS = true ->
  score_text KEYWORD_WEIGHTS FALSE_POSITIVE_EXCLUSIONS FICTION_FAKE_INDICATORS
    REAL_CONTENT_WEIGHTS s
  <= score_text KEYWORD_WEIGHTS FALSE_POSITIVE_EXCLUSIONS [] REAL_CONTENT_WEIGHTS s.
Proof.
  intros Hnn. rewrite !score_text_unfold.
  destruct (blank s); [lra|].
  apply clamp_mono, bonus_loop_mono.
  rewrite fiction_loop_spec. simpl.
  pose proof (capped_nonneg KEYWORD_WEIGHTS FALSE_POSITIVE_EXCLUSIONS (lower s) Hnn).
  destruct (existsb _ _); lra.
Qed.

Lemma first_phrase_In text_lower items pb :
  first_phrase text_lower items = Some pb -> In pb items.
Proof. unfold first_phrase. intros H. now apply find_some in H. Qed.

(** X3: with bonuses that are not negative, a real-content phrase never
    lowers the score: the score is at least the one obtained without the
    bonus table. *)
Theorem real_content_bonus_never_lowers (s : string) :
  nonneg_weights REAL_CONTENT_WEIGHTS = true ->
  score_text KEYWORD_WEIGHTS FALSE_POSITIVE_EXCLUSIONS FICTION_FAKE_INDICATORS [] s
  <= score_text KEYWORD_WEIGHTS FALSE_POSITIVE_EXCLUSIONS FICTION_FAKE_INDICATORS
       REAL_CONTENT_WEIGHTS s.
Proof.
  intros Hnn. rewrite !score_text_unfold.
  destruct (blank s); [lra|].
  apply clamp_mono. simpl. rewrite bonus_loop_spec.
  set (t := fiction_loop _ _ _).
  destruct (first_phrase (lower s) (sorted_by_weight REAL_CONTENT_WEIGHTS))
    as [pb|] eqn:E; [|lra].
  assert (Hb : 0 <= snd pb).
  { apply first_phrase_In in E.
    pose proof (nonneg_weights_perm _ _ (sorted_by_weight_perm REAL_CONTENT_WEIGHTS) Hnn)
      as H.
    unfold nonneg_weights in H. rewrite forallb_forall in H.
    apply leb_le. now apply H. }
  assert (Ht : t <= 1).
  { unfold t. rewrite fiction_loop_spec.
    pose proof (py_min_le_l 1 (keyword_loop FALSE_POSITIVE_EXCLUSIONS (lower s)
                                 (sorted_by_weight KEYWORD_WEIGHTS) 0)) as Hc.
    fold (capped_keyword_total KEYWORD_WEIGHTS FALSE_POSITIVE_EXCLUSIONS (lower s)) in Hc.
    destruct (existsb _ _); lra. }
  destruct (py_min_spec 1 (t + snd pb)) as [[? ->]|[? ->]]; lra.
Qed.

Lemma keyword_loop_none EX text_lower l total :
  no_keyword EX text_lower l = true -> keyword_loop EX text_lower l total = total.
Proof.
  induction l as [|kw l IH]; simpl; [reflexivity|]. unfold no_keyword in *. simpl.
  intros [Hkw Hl]%andb_true_iff. apply negb_true_iff in Hkw.
  destruct kw as [k w]. unfold contributes in Hkw. simpl in *.
  rewrite Hkw. now apply IH.
Qed.

Lemma forallb_perm {A} (f : A -> bool) l l' :
  Permutation l l' -> forallb f l = true -> forallb f l' = true.
Proof.
  rewrite !forallb_forall. intros Hp H x Hx. apply H.
  eapply Permutation_in; [symmetry; exact Hp|exact Hx].
Qed.

Lemma first_phrase_none text_lower items :
  no_phrase text_lower items = true -> first_phrase text_lower items = None.
Proof.
  unfold no_phrase, first_phrase.
  induction items as [|pb l IH]; simpl; [reflexivity|].
  intros [Hp Hl]%andb_true_iff. apply negb_true_iff in Hp.
  rewrite Hp. now apply IH.
Qed.

(** X4: a text in which no keyword counts (absent, or excluded as a false
    positive) and no real-content phrase occurs scores exactly 0.0,
    whatever fiction indicators it holds. *)
Theorem score_text_nothing_found (s : string) :
  no_keyword FALSE_POSITIVE_EXCLUSIONS (lower s) KEYWORD_WEIGHTS = true ->
  no_phrase (lower s) REAL_CONTENT_WEIGHTS = true ->
  score_text KEYWORD_WEIGHTS FALSE_POSITIVE_EXCLUSIONS FICTION_FAKE_INDICATORS
    REAL_CONTENT_WEIGHTS s = 0.
Proof.
  intros Hk Hp. rewrite score_text_unfold.
  destruct (blank s); [reflexivity|].
  rewrite bonus_loop_spec, first_phrase_none, fiction_loop_spec.
  - unfold capped_keyword_total. rewrite keyword_loop_none.
    + now destruct (existsb _ _).
    + eapply forallb_perm; [apply sorted_by_weight_perm|exact Hk].
  - eapply forallb_perm; [apply sorted_by_weight_perm|exact Hp].
Qed.

End ScoreTextMore.

Lemma score_text_case_insensitive_witness :
  PyStr.lower "BLOOD on the Floor" = PyStr.lower "blood ON THE floor" /\
  Sample.score_text "BLOOD on the Floor" = Sample.score_text "blood ON THE floor".
Proof.
  split; [reflexivity|].
  apply (score_text_case_insensitive Sample.KEYWORD_WEIGHTS
           Sample.FALSE_POSITIVE_EXCLUSIONS Sample.FICTION_FAKE_INDICATORS
           Sample.REAL_CONTENT_WEIGHTS "BLOOD on the Floor" "blood ON THE floor").
  reflexivity.
Defined.

Lemma fiction_penalty_never_raises_witness :
  Spec.nonneg_weights Sample.KEYWORD_WEIGHTS = true /\
  (Sample.score_text "murder in the new film"
   <= score_text Sample.KEYWORD_WEIGHTS Sample.FALSE_POSITIVE_EXCLUSIONS []
        Sample.REAL_CONTENT_WEIGHTS "murder in the new film")%Q.
Proof.
  split; [reflexivity|].
  apply (fiction_penalty_never_raises Sample.KEYWORD_WEIGHTS
           Sample.FALSE_POSITIVE_EXCLUSIONS Sample.FICTION_FAKE_INDICATORS
           Sample.REAL_CONTENT_WEIGHTS "murder in the new film").
  reflexivity.
Defined.

Lemma real_content_bonus_never_lowers_witness :
  Spec.nonneg_weights Sample.REAL_CONTENT_WEIGHTS = true /\
  (score_text Sample.KEYWORD_WEIGHTS Sample.FALSE_POSITIVE_EXCLUSIONS
     Sample.FICTION_FAKE_INDICATORS [] "cctv of the shooting"
   <= Sample.score_text "cctv of the shooting")%Q.
Proof.
  split; [reflexivity|].
  apply (real_content_bonus_never_lowers Sample.KEYWORD_WEIGHTS
           Sample.FALSE_POSITIVE_EXCLUSIONS Sample.FICTION_FAKE_INDICATORS
           Sample.REAL_CONTENT_WEIGHTS "cctv of the shooting").
  reflexivity.
Defined.

Lemma score_text_nothing_found_witness :
  Spec2.no_keyword Sample.FALSE_POSITIVE_EXCLUSIONS
    (PyStr.lower "Blood test results for the new film") Sample.KEYWORD_WEIGHTS = true /\
  Sample.score_text "Blood test results for the new film" = 0%Q.
Proof.
  split; [reflexivity|].
  apply (score_text_nothing_found Sample.KEYWORD_WEIGHTS
           Sample.FALSE_POSITIVE_EXCLUSIONS Sample.FICTION_FAKE_INDICATORS
           Sample.REAL_CONTENT_WEIGHTS "Blood test results for the new film").
  - reflexivity.
  - reflexivity.
Defined.

(** ** [score_article], [score_image_from_url] and [clamp_severity_display]
    beyond the claims *)

Section ArticleMore.
Import PyFloat PyFloatFacts PyMinMaxFacts PyStr Spec Spec2.
Local Open Scope Q_scope.

Variable KEYWORD_WEIGHTS : list (string * Q).
Variable FALSE_POSITIVE_EXCLUSIONS : gmap string (list string).
Variable FICTION_FAKE_INDICATORS : list string.
Variable REAL_CONTENT_WEIGHTS : list (string * Q).
Variable IMAGE_RED_PERCENT_TO_SEVERITY : Q.

Let text_score := score_text KEYWORD_WEIGHTS FALSE_POSITIVE_EXCLUSIONS
                    FICTION_FAKE_INDICATORS REAL_CONTENT_WEIGHTS.
Let article_score := score_article KEYWORD_WEIGHTS FALSE_POSITIVE_EXCLUSIONS
                       FICTION_FAKE_INDICATORS REAL_CONTENT_WEIGHTS
                       IMAGE_RED_PERCENT_TO_SEVERITY.

Lemma score_text_range KW EX FI RC s : 0 <= score_text KW EX FI RC s <= 1.
Proof.
  rewrite score_text_unfold. destruct (blank s); [lra|].
  apply clamp_range. lra.
Qed.

(** X5: whatever the article, the network and the decoder, [score_article]
    returns a score and no exception; the score is in [[0, 1]] and is never
    below the text score; and without [include_image] it is the same for
    any two networks and decoders. *)
Theorem score_article_total (requests_get : string -> result response)
    (Image_open : string -> result (list pixel))
    (a : article) (include_image : bool) :
  let text := text_score (or_empty (article_get a "title") ++ " "
                          ++ or_empty (article_get a "description")) in
  (exists v,
     article_score requests_get Image_open a include_image = Ok v /\
     0 <= v <= 1 /\ text <= v) /\
  (forall requests_get' Image_open',
     article_score requests_get Image_open a false
     = article_score requests_get' Image_open' a false).
Proof.
  intros text.
  pose proof (score_text_range KEYWORD_WEIGHTS FALSE_POSITIVE_EXCLUSIONS
                FICTION_FAKE_INDICATORS REAL_CONTENT_WEIGHTS
                (or_empty (article_get a "title") ++ " "
                 ++ or_empty (article_get a "description"))) as Ht.
  fold text_score in Ht. fold text in Ht.
  split; [|reflexivity].
  unfold article_score, score_article. fold text_score. fold text.
  destruct include_image; simpl; [|exists text; split; [reflexivity|lra]].
  destruct (falsy (article_get a "urlToImage"));
    [exists text; split; [reflexivity|lra]|].
  destruct (image_score_total IMAGE_RED_PERCENT_TO_SEVERITY requests_get Image_open
              (or_empty (article_get a "urlToImage"))) as (img & Himg & Hr).
  rewrite Himg. simpl. exists (py_max text img). split; [reflexivity|].
  destruct (py_max_spec text img) as [[? ->]|[? ->]]; lra.
Qed.

(** X6: the clamp of [score_image_from_url] changes nothing:
    [image_gore_score] is already in [[0, 1]] and both return the same
    number. *)
Theorem score_image_from_url_is_image_gore_score
    (requests_get : string -> result response)
    (Image_open : string -> result (list pixel)) (url : string) :
  exists raw v,
    image_gore_score IMAGE_RED_PERCENT_TO_SEVERITY requests_get Image_open url = Ok raw /\
    score_image_from_url IMAGE_RED_PERCENT_TO_SEVERITY requests_get Image_open url = Ok v /\
    v == raw /\ 0 <= raw <= 1.
Proof.
  destruct (gore_score_total IMAGE_RED_PERCENT_TO_SEVERITY requests_get Image_open url)
    as (raw & Hraw & Hr).
  exists raw, (py_min 1 (py_max 0 raw)). split; [exact Hraw|].
  split; [now apply image_score_of_gore_score|]. split; [|exact Hr].
  assert (Hm : py_max 0 raw == raw).
  { destruct (py_max_spec 0 raw) as [[? ->]|[? ->]]; lra. }
  destruct (py_min_spec 1 (py_max 0 raw)) as [[? ->]|[? ->]]; lra.
Qed.

End ArticleMore.

Section DisplayMore.
Import PyFloat PyFloatFacts PyMinMaxFacts.
Local Open Scope Q_scope.

Lemma ltb_comp a a' b b' : a == a' -> b == b' -> ltb a b = ltb a' b'.
Proof.
  intros Ea Eb. destruct (ltb a b) eqn:E1, (ltb a' b') eqn:E2; try reflexivity.
  - apply ltb_lt in E1. apply ltb_ge in E2. lra.
  - apply ltb_ge in E1. apply ltb_lt in E2. lra.
Qed.

Lemma round_half_even_comp x y : x == y -> round_half_even x = round_half_even y.
Proof.
  intros E. unfold round_half_even.
  rewrite (Qfloor_comp _ _ E).
  rewrite (ltb_comp (x - inject_Z (Qfloor y)) (y - inject_Z (Qfloor y)) (1 # 2) (1 # 2))
    by (rewrite ?E; reflexivity).
  rewrite (ltb_comp (1 # 2) (1 # 2) (x - inject_Z (Qfloor y)) (y - inject_Z (Qfloor y)))
    by (rewrite ?E; reflexivity).
  reflexivity.
Qed.

Lemma round_half_even_mono x y :
  x <= y -> (round_half_even x <= round_half_even y)%Z.
Proof.
  intros H.
  destruct (Z_le_gt_dec (round_half_even x) (round_half_even y)) as [Hle|Hgt];
    [exact Hle|exfalso].
  pose proof (round_half_even_near x) as Hx.
  pose proof (round_half_even_near y) as Hy.
  assert (Hz : inject_Z (round_half_even y) + 1 <= inject_Z (round_half_even x)).
  { change 1 with (inject_Z 1). rewrite <- inject_Z_plus. rewrite <- Zle_Qle. lia. }
  assert (E : x == y) by lra.
  rewrite (round_half_even_comp x y E) in Hgt. lia.
Qed.

Lemma py_round2_mono x y : x <= y -> py_round2 x <= py_round2 y.
Proof.
  intros H. unfold py_round2.
  assert (Hr : inject_Z (round_half_even (x * 100)) <= inject_Z (round_half_even (y * 100))).
  { rewrite <- Zle_Qle. apply round_half_even_mono. lra. }
  unfold Qdiv. change (/ 100) with (1 # 100). lra.
Qed.

(** X7: the displayed severity is monotone: a higher score is never
    displayed lower, for any bounds. *)
Theorem clamp_severity_display_monotone (SEVERITY_MIN SEVERITY_MAX x y : Q) :
  x <= y ->
  clamp_severity_display SEVERITY_MIN SEVERITY_MAX x
  <= clamp_severity_display SEVERITY_MIN SEVERITY_MAX y.
Proof.
  intros H. unfold clamp_severity_display.
  now apply clamp_mono, py_round2_mono.
Qed.

End DisplayMore.

Lemma clamp_severity_display_monotone_witness :
  (31 # 100 <= 87 # 100)%Q /\
  (clamp_severity_display Sample.SEVERITY_MIN Sample.SEVERITY_MAX (31 # 100)
   <= clamp_severity_display Sample.SEVERITY_MIN Sample.SEVERITY_MAX (87 # 100))%Q.
Proof.
  split; [discriminate|].
  apply (clamp_severity_display_monotone Sample.SEVERITY_MIN Sample.SEVERITY_MAX
           (31 # 100) (87 # 100)).
  discriminate.
Defined.

(** ** [score_to_color] and [_lerp_hex] beyond the claims *)

Section ColorMore.
Import PyFloat PyFloatFacts PyMinMaxFacts PyStr Spec Spec2.
Local Open Scope Q_scope.

Lemma well_formed_color_parse c :
  well_formed_color c = true ->
  exists r g b,
    parse c = Ok (r, g, b) /\
    is_channel r = true /\ is_channel g = true /\ is_channel b = true.
Proof.
  unfold well_formed_color. destruct (parse c) as [[[r g] b]|]; [|discriminate].
  intros [[Hr Hg]%andb_true_iff Hb]%andb_true_iff. eauto 8.
Qed.

Lemma well_formed_format_color r g b :
  is_channel r = true -> is_channel g = true -> is_channel b = true ->
  well_formed_color (format_color r g b) = true.
Proof.
  intros Hr Hg Hb. unfold well_formed_color.
  rewrite parse_format_color by assumption. now rewrite Hr, Hg, Hb.
Qed.

Lemma format_color_length r g b :
  is_channel r = true -> is_channel g = true -> is_channel b = true ->
  String.length (format_color r g b) = 7%nat.
Proof.
  intros Hr Hg Hb. unfold format_color.
  destruct (format_02X_channel r Hr) as (r1 & r2 & -> & _).
  destruct (format_02X_channel g Hg) as (g1 & g2 & -> & _).
  destruct (format_02X_channel b Hb) as (b1 & b2 & -> & _).
  reflexivity.
Qed.

Lemma lerp_hex_well_formed hex_a hex_b t :
  well_formed_color hex_a = true -> well_formed_color hex_b = true ->
  0 <= t <= 1 ->
  exists r g b,
    is_channel r = true /\ is_channel g = true /\ is_channel b = true /\
    _lerp_hex hex_a hex_b t = Ok (format_color r g b).
Proof.
  intros (a0 & a1 & a2 & Pa & Ha0 & Ha1 & Ha2)%well_formed_color_parse
         (b0 & b1 & b2 & Pb & Hb0 & Hb1 & Hb2)%well_formed_color_parse Ht.
  unfold _lerp_hex. rewrite Pa, Pb. simpl.
  exists (lerp_channel a0 b0 t), (lerp_channel a1 b1 t), (lerp_channel a2 b2 t).
  repeat split; try reflexivity; now apply lerp_channel_range.
Qed.

Lemma bracket_parameter_unit s a_val b_val :
  a_val <= s -> s <= b_val ->
  0 <= (if negb (eqb b_val a_val) then (s - a_val) / (b_val - a_val) else 1) <= 1.
Proof.
  intros Ha Hb. cmp_cases (eqb b_val a_val); simpl; [lra|].
  assert (a_val < b_val).
  { apply Qnot_le_lt. intros Hle. apply E. lra. }
  split; [apply Qle_shift_div_l|apply Qle_shift_div_r]; lra.
Qed.

Lemma bracket_loop_well_formed anchors s :
  forallb (fun a => well_formed_color (snd a)) anchors = true ->
  match bracket_loop anchors s with
  | Some res =>
      exists r g b,
        is_channel r = true /\ is_channel g = true /\ is_channel b = true /\
        res = Ok (format_color r g b)
  | None => True
  end.
Proof.
  induction anchors as [|[a_val a_hex] l IH]; [intros _; exact I|].
  destruct l as [|[b_val b_hex] l']; [intros _; exact I|].
  intros H. pose proof H as H'. simpl in H'.
  apply andb_true_iff in H' as [Ha H']. pose proof H' as Hl.
  apply andb_true_iff in H' as [Hb _].
  change (bracket_loop ((a_val, a_hex) :: (b_val, b_hex) :: l') s)
    with (if leb a_val s && leb s b_val
          then Some (_lerp_hex a_hex b_hex
                 (if negb (eqb b_val a_val)
                  then (s - a_val) / (b_val - a_val) else 1))
          else bracket_loop ((b_val, b_hex) :: l') s).
  cmp_cases (leb a_val s); simpl; [|now apply IH].
  cmp_cases (leb s b_val); simpl; [|now apply IH].
  apply lerp_hex_well_formed; auto.
  now apply bracket_parameter_unit.
Qed.

(** X8: without anchors [score_to_color] raises [IndexError]; with at
    least one anchor and colours that all read as three channels it never
    raises, whatever the score and the order of the anchors: the result is
    the colour of an anchor or a [#RRGGBB] string of seven characters, and
    in both cases a colour that reads as three channels again. *)
Theorem score_to_color_total (anchors : list (Q * string)) (score : Q) :
  (anchors = [] -> score_to_color anchors score = Raise IndexError) /\
  (anchors <> [] ->
   forallb (fun a => well_formed_color (snd a)) anchors = true ->
   exists c,
     score_to_color anchors score = Ok c /\
     well_formed_color c = true /\
     (In c (map snd anchors) \/
      exists r g b,
        is_channel r = true /\ is_channel g = true /\ is_channel b = true /\
        c = format_color r g b /\ String.length c = 7%nat)).
Proof.
  split; [now intros ->|].
  intros Hne Hwf.
  assert (Hin : forall a, In a anchors ->
                  well_formed_color (snd a) = true /\ In (snd a) (map snd anchors)).
  { intros a Ha. rewrite forallb_forall in Hwf. split; [now apply Hwf|].
    now apply in_map. }
  destruct (last_anchor_cases anchors Hne) as (l & z & El & Hz).
  assert (Hzin : In z anchors) by (rewrite El; apply in_or_app; right; now left).
  destruct anchors as [|a0 rest]; [congruence|].
  unfold score_to_color. fold (clamp01 score). simpl first_anchor. cbn [bind].
  destruct (leb (clamp01 score) (fst a0)).
  { exists (snd a0). destruct (Hin a0 (or_introl eq_refl)). auto. }
  rewrite Hz. cbn [bind].
  destruct (leb (fst z) (clamp01 score)).
  { exists (snd z). destruct (Hin z Hzin). auto. }
  pose proof (bracket_loop_well_formed (a0 :: rest) (clamp01 score) Hwf) as Hb.
  destruct (bracket_loop (a0 :: rest) (clamp01 score)) as [res|].
  - destruct Hb as (r & g & b & Hr & Hg & Hbl & ->).
    exists (format_color r g b). split; [reflexivity|].
    split; [now apply well_formed_format_color|].
    right. exists r, g, b. repeat split; auto. now apply format_color_length.
  - exists (snd z). destruct (Hin z Hzin). auto.
Qed.

(** X9: a score of 1.0 or more is coloured as 1.0 and a score of 0.0 or
    less as 0.0; a (clamped) score at or below the first anchor gets the
    first colour as it is, and one above the first and at or above the last
    anchor gets the last colour as it is, read or not. *)
Theorem score_to_color_outside (anchors : list (Q * string)) (score : Q) :
  (1 <= score -> score_to_color anchors score = score_to_color anchors 1) /\
  (score <= 0 -> score_to_color anchors score = score_to_color anchors 0) /\
  (forall a0 rest,
     anchors = a0 :: rest -> clamp01 score <= fst a0 ->
     score_to_color anchors score = Ok (snd a0)) /\
  (forall a0 rest an,
     anchors = a0 :: rest -> last_anchor anchors = Ok an ->
     fst a0 < clamp01 score -> fst an <= clamp01 score ->
     score_to_color anchors score = Ok (snd an)).
Proof.
  repeat split.
  - intros H. unfold score_to_color. now rewrite (py_min_1_ge score H).
  - intros H. unfold score_to_color.
    assert (E : py_max 0 (py_min 1 score) = 0).
    { unfold py_min. cmp_cases (ltb score 1); [|lra].
      unfold py_max. cmp_cases (ltb 0 score); [lra|reflexivity]. }
    now rewrite E.
  - intros a0 rest -> H. unfold score_to_color. fold (clamp01 score). simpl.
    cmp_cases (leb (clamp01 score) (fst a0)); [reflexivity|lra].
  - intros a0 rest an -> Hz H0 Hn. unfold score_to_color. fold (clamp01 score).
    simpl first_anchor. cbn [bind].
    cmp_cases (leb (clamp01 score) (fst a0)); [lra|].
    rewrite Hz. cbn [bind].
    cmp_cases (leb (fst an) (clamp01 score)); [reflexivity|lra].
Qed.

Lemma hex_value_lower c : hex_value (lower_char c) = hex_value c.
Proof. destruct c as [[] [] [] [] [] [] [] []]; reflexivity. Qed.

Lemma is_int_space_lower c : is_int_space (lower_char c) = is_int_space c.
Proof. destruct c as [[] [] [] [] [] [] [] []]; reflexivity. Qed.

Lemma sign_lower c (sign : ascii) :
  sign = "+"%char \/ sign = "-"%char \/ sign = "#"%char ->
  Ascii.eqb (lower_char c) sign = Ascii.eqb c sign.
Proof.
  intros [->|[->| ->]]; destruct c as [[] [] [] [] [] [] [] []]; reflexivity.
Qed.

Lemma int16_lower s : int16 (lower s) = int16 s.
Proof.
  destruct s as [|c1 [|c2 [|c3 s]]]; try reflexivity; simpl.
  - now rewrite hex_value_lower.
  - rewrite !hex_value_lower, !is_int_space_lower.
    now rewrite !sign_lower by auto.
Qed.

Lemma lstrip_hash_eqb c s :
  lstrip_hash (String c s) = if Ascii.eqb c "#" then lstrip_hash s else String c s.
Proof. destruct c as [[] [] [] [] [] [] [] []]; reflexivity. Qed.

Lemma lstrip_hash_lower s : lstrip_hash (lower s) = lower (lstrip_hash s).
Proof.
  induction s as [|c s IH]; [reflexivity|].
  change (lower (String c s)) with (String (lower_char c) (lower s)).
  rewrite !lstrip_hash_eqb, sign_lower by auto.
  destruct (Ascii.eqb c "#"); [exact IH|reflexivity].
Qed.

Lemma substring_lower n m s : substring n m (lower s) = lower (substring n m s).
Proof.
  revert n m. induction s as [|c s IH]; intros [|n] [|m]; simpl; try reflexivity.
  - now rewrite IH.
  - apply IH.
  - apply IH.
Qed.

Lemma parse_lower h : parse (lower h) = parse h.
Proof.
  unfold parse, slice.
  now rewrite lstrip_hash_lower, !substring_lower, !int16_lower.
Qed.

(** X10: the colours are read without regard to the case of the
    hexadecimal digits and to leading [#]: [_lerp_hex] gives the same
    upper-case result for ["#ff8000"], ["#FF8000"] and ["FF8000"]. *)
Theorem lerp_hex_case_insensitive (hex_a hex_b : string) (t : Q) :
  _lerp_hex (lower hex_a) (lower hex_b) t = _lerp_hex hex_a hex_b t /\
  _lerp_hex (String "#" hex_a) (String "#" hex_b) t = _lerp_hex hex_a hex_b t.
Proof.
  unfold _lerp_hex. rewrite !parse_lower. split; reflexivity.
Qed.

Lemma lerp_channel_start a b t : t == 0 -> lerp_channel a b t = a.
Proof.
  intros E. unfold lerp_channel.
  transitivity (py_int (inject_Z a)); [|apply py_int_inject_Z].
  apply py_int_comp. rewrite E. lra.
Qed.

Lemma lerp_channel_same a t : lerp_channel a a t = a.
Proof.
  unfold lerp_channel.
  transitivity (py_int (inject_Z a)); [|apply py_int_inject_Z].
  apply py_int_comp. rewrite Z.sub_diag. change (inject_Z 0) with 0. lra.
Qed.

(** X11: for colours that read as channels, [_lerp_hex] at [t = 0] writes
    the first colour and at [t = 1] the second, both in upper-case
    [#RRGGBB]; between a colour and itself it writes that colour for every
    [t]. *)
Theorem lerp_hex_endpoints (hex_a hex_b : string) (a0 a1 a2 b0 b1 b2 : Z) (t : Q) :
  parse hex_a = Ok (a0, a1, a2) -> parse hex_b = Ok (b0, b1, b2) ->
  _lerp_hex hex_a hex_b 0 = Ok (format_color a0 a1 a2) /\
  _lerp_hex hex_a hex_b 1 = Ok (format_color b0 b1 b2) /\
  _lerp_hex hex_a hex_a t = Ok (format_color a0 a1 a2).
Proof.
  intros Pa Pb. unfold _lerp_hex. rewrite Pa, Pb. simpl.
  rewrite !lerp_channel_same.
  rewrite !(lerp_channel_start _ _ 0) by reflexivity.
  rewrite !(lerp_channel_end _ _ 1) by reflexivity.
  auto.
Qed.

End ColorMore.

Lemma score_to_color_total_witness :
  Sample.SEVERITY_COLOR_ANCHORS <> [] /\
  exists c,
    score_to_color Sample.SEVERITY_COLOR_ANCHORS (3 # 10) = Ok c /\
    Spec2.well_formed_color c = true /\
    (In c (map snd Sample.SEVERITY_COLOR_ANCHORS) \/
     exists r g b,
       Spec.is_channel r = true /\ Spec.is_channel g = true /\
       Spec.is_channel b = true /\
       c = format_color r g b /\ String.length c = 7%nat).
Proof.
  split; [discriminate|].
  apply (proj2 (score_to_color_total Sample.SEVERITY_COLOR_ANCHORS (3 # 10))).
  - discriminate.
  - reflexivity.
Defined.

Lemma score_to_color_outside_witness :
  (1 <= 7 # 2)%Q /\
  score_to_color Sample.SEVERITY_COLOR_ANCHORS (7 # 2)
  = score_to_color Sample.SEVERITY_COLOR_ANCHORS 1.
Proof.
  split; [discriminate|].
  apply (proj1 (score_to_color_outside Sample.SEVERITY_COLOR_ANCHORS (7 # 2))).
  discriminate.
Defined.

Lemma lerp_hex_endpoints_witness :
  parse "#ff8000" = Ok (255, 128, 0)%Z /\
  _lerp_hex "#ff8000" "#0000FF" 0 = Ok (format_color 255 128 0).
Proof.
  split; [reflexivity|].
  apply (proj1 (lerp_hex_endpoints "#ff8000" "#0000FF" 255 128 0 0 0 255 0
                  eq_refl eq_refl)).
Defined.

(** ** utils.py beyond the claims *)

Section ImageMore.
Import PyFloat PyFloatFacts PyMinMaxFacts PyStr Spec Spec2.
Local Open Scope Q_scope.

Variable IMAGE_RED_PERCENT_TO_SEVERITY : Q.
Variable requests_get : string -> result response.
Variable Image_open : string -> result (list pixel).

Lemma filter_length_bound {A} (f : A -> bool) l :
  (length (List.filter f l) <= length l)%nat.
Proof.
  induction l as [|x l IH]; simpl; [lia|].
  destruct (f x); simpl; lia.
Qed.

Lemma blood_percentage_le_100 pixels : blood_percentage pixels <= 100.
Proof.
  destruct pixels as [|p l]; [simpl; lra|].
  unfold blood_percentage.
  set (c := Z.of_nat _). set (n := Z.of_nat (length (p :: l))).
  assert (Hn : 0 < inject_Z n) by (apply inject_Z_pos; subst n; simpl length; lia).
  assert (Hc : inject_Z c <= inject_Z n).
  { rewrite <- Zle_Qle. subst c n. apply Nat2Z.inj_le, filter_length_bound. }
  assert (inject_Z c / inject_Z n <= 1).
  { apply Qle_shift_div_r; [exact Hn|lra]. }
  lra.
Qed.

(** X12: [_blood_red_percentage] never raises; it answers [(True, pct)]
    with [0 <= pct <= 100] exactly when the image was fetched without an
    HTTP error status and decoded, and [(False, 0.0)] otherwise. *)
Theorem blood_red_percentage_total (url : string) :
  exists success pct,
    _blood_red_percentage requests_get Image_open url = Ok (success, pct) /\
    0 <= pct <= 100 /\
    (success = false -> pct = 0) /\
    (success = true <->
     exists resp pixels,
       requests_get url = Ok resp /\ error_status resp = false /\
       Image_open (content resp) = Ok pixels).
Proof.
  destruct (blood_red_percentage_cases requests_get Image_open url)
    as [(resp & pixels & Hg & Hs & Hi & H)|H].
  - exists true, (blood_percentage pixels). split; [exact H|].
    split; [split; [apply blood_percentage_nonneg|apply blood_percentage_le_100]|].
    split; [discriminate|]. split; [|reflexivity]. eauto.
  - exists false, 0. split; [exact H|]. split; [lra|]. split; [reflexivity|].
    split; [discriminate|].
    intros (resp & pixels & Hg & Hs & Hi). exfalso.
    unfold _blood_red_percentage, raise_for_status in H.
    unfold error_status in Hs. rewrite Hg in H. simpl in H. rewrite Hs in H.
    simpl in H. rewrite Hi in H. discriminate H.
Qed.

(** X13: a pixel that the loop counts has a red channel above 70 that
    dominates green and blue, both below 110, so that no grey, white or
    black pixel is counted; and the tests [r > g] and [r > b] of the dark-red
    branch never decide, the three thresholds imply them. *)
Theorem counted_pixels_are_red (r g b : Z) :
  (is_bright_red (r, g, b) || is_dark_red (r, g, b) = true ->
   (70 < r /\ g < 110 /\ b < 110 /\ g < r /\ b < r)%Z) /\
  (r = g -> g = b -> count_loop [(r, g, b)] 0 = 0%Z) /\
  is_dark_red (r, g, b) = ((70 <? r) && (g <? 55) && (b <? 55))%Z.
Proof.
  unfold is_bright_red, is_dark_red. simpl.
  destruct (140 <? r)%Z eqn:E1, (70 <? r)%Z eqn:E2, (g <? 110)%Z eqn:E3,
    (b <? 110)%Z eqn:E4, (g <? 55)%Z eqn:E5, (b <? 55)%Z eqn:E6,
    (g <? r)%Z eqn:E7, (b <? r)%Z eqn:E8; simpl;
    rewrite ?Z.ltb_lt, ?Z.ltb_ge in *;
    repeat split; intros; try discriminate; try reflexivity; lia.
Qed.

(** X14: the count is a sum over the pixels: counting a concatenation is
    counting its parts one after the other, and neither the count nor the
    percentage depends on the order of the pixels. *)
Theorem count_loop_is_a_reduction (l1 l2 : list pixel) (count : Z) :
  count_loop (l1 ++ l2) count = count_loop l2 (count_loop l1 count) /\
  (Permutation l1 l2 ->
   count_loop l1 count = count_loop l2 count /\
   percentage (count_loop l1 0) (Z.of_nat (length l1))
   = percentage (count_loop l2 0) (Z.of_nat (length l2))).
Proof.
  split.
  - rewrite !count_loop_spec, List.filter_app, List.length_app. lia.
  - intros Hp.
    assert (Hf : length (List.filter blood_like l1) = length (List.filter blood_like l2)).
    { apply Permutation_length.
      clear count. induction Hp; simpl.
      - constructor.
      - destruct (blood_like x); [now constructor|assumption].
      - destruct (blood_like x), (blood_like y); try reflexivity; constructor.
      - etransitivity; eassumption. }
    rewrite !count_loop_spec, Hf, (Permutation_length Hp). auto.
Qed.

(** X15: [detect_image_gore] never raises; its flag says that the
    percentage of [0 <= pct <= 100] is above the reference; with a
    reference of at least 0.01 a flagged image has the full score 1.0 of
    [image_gore_score], and with a reference of 100 or more no image is
    flagged. *)
Theorem detect_image_gore_agrees (url : string) :
  exists is_gore pct,
    detect_image_gore IMAGE_RED_PERCENT_TO_SEVERITY requests_get Image_open url
    = Ok (is_gore, pct) /\
    0 <= pct <= 100 /\
    (is_gore = true <-> IMAGE_RED_PERCENT_TO_SEVERITY < pct) /\
    (1 # 100 <= IMAGE_RED_PERCENT_TO_SEVERITY -> is_gore = true ->
     image_gore_score IMAGE_RED_PERCENT_TO_SEVERITY requests_get Image_open url = Ok 1) /\
    (100 <= IMAGE_RED_PERCENT_TO_SEVERITY -> is_gore = false).
Proof.
  destruct (blood_red_percentage_total url) as (success & pct & Hp & Hr & _).
  exists (ltb IMAGE_RED_PERCENT_TO_SEVERITY pct), pct.
  split; [unfold detect_image_gore; now rewrite Hp|].
  split; [exact Hr|]. split; [apply ltb_lt|]. split.
  - intros Href Hg. apply ltb_lt in Hg.
    rewrite (gore_score_of_percentage IMAGE_RED_PERCENT_TO_SEVERITY requests_get
               Image_open url success pct Hp).
    f_equal. apply py_min_1_ge.
    set (cap := py_max (1 # 100) IMAGE_RED_PERCENT_TO_SEVERITY).
    assert (Hc : 1 # 100 <= cap /\ cap <= IMAGE_RED_PERCENT_TO_SEVERITY).
    { unfold cap.
      destruct (py_max_spec (1 # 100) IMAGE_RED_PERCENT_TO_SEVERITY)
        as [[? ->]|[? ->]]; lra. }
    apply Qle_shift_div_l; lra.
  - intros Href. apply ltb_ge. lra.
Qed.

End ImageMore.

Lemma counted_pixels_are_red_witness :
  is_bright_red Sample.red || is_dark_red Sample.red = true /\
  (70 < 200 /\ 10 < 110 /\ 10 < 110 /\ 10 < 200 /\ 10 < 200)%Z.
Proof.
  split; [reflexivity|].
  apply (proj1 (counted_pixels_are_red 200 10 10)). reflexivity.
Defined.

Lemma count_loop_is_a_reduction_witness :
  Permutation [Sample.red; Sample.grey; Sample.red] [Sample.grey; Sample.red; Sample.red] /\
  count_loop [Sample.red; Sample.grey; Sample.red] 0
  = count_loop [Sample.grey; Sample.red; Sample.red] 0.
Proof.
  assert (H : Permutation [Sample.red; Sample.grey; Sample.red]
                [Sample.grey; Sample.red; Sample.red]) by apply perm_swap.
  split; [exact H|].
  apply (proj1 (proj2 (count_loop_is_a_reduction
           [Sample.red; Sample.grey; Sample.red]
           [Sample.grey; Sample.red; Sample.red] 0) H)).
Defined.

Lemma blood_red_percentage_total_witness :
  exists success pct,
    _blood_red_percentage Sample.requests_get Sample.Image_open
      "http://img.example/page.html" = Ok (success, pct) /\
    (0 <= pct <= 100)%Q /\
    (success = false -> pct = 0%Q) /\
    (success = true <->
     exists resp pixels,
       Sample.requests_get "http://img.example/page.html" = Ok resp /\
       Spec.error_status resp = false /\
       Sample.Image_open (content resp) = Ok pixels).
Proof.
  apply (blood_red_percentage_total Sample.requests_get Sample.Image_open
           "http://img.example/page.html").
Defined.

Lemma detect_image_gore_agrees_witness :
  exists is_gore pct,
    detect_image_gore Sample.IMAGE_RED_PERCENT_TO_SEVERITY Sample.requests_get
      Sample.Image_open "http://img.example/red.png" = Ok (is_gore, pct) /\
    (0 <= pct <= 100)%Q /\
    (is_gore = true <-> (Sample.IMAGE_RED_PERCENT_TO_SEVERITY < pct)%Q) /\
    ((1 # 100 <= Sample.IMAGE_RED_PERCENT_TO_SEVERITY)%Q -> is_gore = true ->
     image_gore_score Sample.IMAGE_RED_PERCENT_TO_SEVERITY Sample.requests_get
       Sample.Image_open "http://img.example/red.png" = Ok 1%Q) /\
    ((100 <= Sample.IMAGE_RED_PERCENT_TO_SEVERITY)%Q -> is_gore = false).
Proof.
  apply (detect_image_gore_agrees Sample.IMAGE_RED_PERCENT_TO_SEVERITY
           Sample.requests_get Sample.Image_open "http://img.example/red.png").
Defined.

(** ** [insert] beyond the claims *)

Section InsertMore.
Import PyFloat PyFloatFacts PyMinMaxFacts PyStr Database Spec2.
Local Open Scope Q_scope.

Lemma substring_0_length n s :
  String.length (substring 0 n s) = Nat.min n (String.length s).
Proof.
  revert s. induction n as [|n IH]; intros [|c s]; simpl; try reflexivity.
  now rewrite IH.
Qed.

Lemma slice_0_length n s : (String.length (slice 0 n s) <= n)%nat.
Proof. unfold slice. rewrite Nat.sub_0_r, substring_0_length. lia. Qed.

Lemma slice_0_short n s : (String.length s <= n)%nat -> slice 0 n s = s.
Proof.
  unfold slice. rewrite Nat.sub_0_r. revert s.
  induction n as [|n IH]; intros [|c s]; simpl; intros H; try reflexivity; try lia.
  f_equal. apply IH. lia.
Qed.

Lemma slice_0_nonempty n s :
  s <> EmptyString -> (0 < n)%nat -> slice 0 n s <> EmptyString.
Proof.
  unfold slice. rewrite Nat.sub_0_r.
  destruct n as [|n]; [lia|]. destruct s as [|c s]; [congruence|]. discriminate.
Qed.

Lemma or_default_nonempty v default :
  default <> EmptyString -> or_default v default <> EmptyString.
Proof.
  intros H. destruct v as [[|c s]|]; simpl; auto.
Qed.

(** The row that [insert] writes. *)
Lemma insert_findings d now url_ source_name_ media_type_ severity_score_
    title_ published_at_ snippet_ :
  findings (insert d now url_ source_name_ media_type_ severity_score_
              title_ published_at_ snippet_)
  = List.filter (fun r => negb (String.eqb (url r) (slice 0 2000 url_))) (findings d)
    ++ [ {| id := last_id d + 1;
            title := slice 0 500 (or_default title_ EmptyString);
            url := slice 0 2000 url_;
            source_name := slice 0 100 (or_default source_name_ "unknown");
            media_type := slice 0 50 (or_default media_type_ "unknown");
            severity_score := py_max 0 (py_min 1 severity_score_);
            published_at := slice 0 50 (or_default published_at_ EmptyString);
            snippet := slice 0 2000 (or_default snippet_ EmptyString);
            fetched_at := now |} ].
Proof. reflexivity. Qed.

Lemma NoDup_map_filter {A B} (f : A -> B) (g : A -> bool) l :
  List.NoDup (map f l) -> List.NoDup (map f (List.filter g l)).
Proof.
  induction l as [|x l IH]; simpl; [auto|].
  intros H. apply List.NoDup_cons_iff in H as [Hx Hl].
  destruct (g x); simpl; [|now apply IH].
  apply List.NoDup_cons_iff. split; [|now apply IH].
  intros Hin. apply Hx. apply in_map_iff in Hin as (y & <- & Hy).
  apply filter_In in Hy as [Hy _]. now apply in_map.
Qed.

Lemma NoDup_snoc {B} (l : list B) x :
  List.NoDup l -> ~ In x l -> List.NoDup (l ++ [x]).
Proof.
  intros Hl Hx. induction l as [|y l IH]; simpl.
  - constructor; [intros []|constructor].
  - apply List.NoDup_cons_iff in Hl as [Hy Hl]. apply List.NoDup_cons_iff. split.
    + intros Hin. apply in_app_or in Hin as [Hin|[<-|[]]]; [now apply Hy|].
      apply Hx. now left.
    + apply IH; [exact Hl|]. intros Hin. apply Hx. now right.
Qed.

Lemma insert_or_replace_unique d row :
  unique_urls d -> unique_urls (insert_or_replace d row).
Proof.
  unfold unique_urls, insert_or_replace. simpl. intros H.
  rewrite map_app. simpl. apply NoDup_snoc; [now apply NoDup_map_filter|].
  intros Hin. apply in_map_iff in Hin as (r & Hr & Hin).
  apply filter_In in Hin as [_ Hne]. apply negb_true_iff in Hne.
  apply String.eqb_neq in Hne. congruence.
Qed.

Lemma insert_all_invariant (P : db -> Prop) :
  P empty_db -> (forall d c, P d -> P (apply_call d c)) ->
  forall calls, P (insert_all empty_db calls).
Proof.
  intros H0 Hstep calls. unfold insert_all.
  generalize empty_db H0. induction calls as [|c l IH]; intros d Hd; simpl; [exact Hd|].
  apply IH, Hstep, Hd.
Qed.

(** X16: [insert] keeps the urls of the table pairwise distinct, as
    [UNIQUE(url)] demands; a table filled by [insert] alone never holds
    two rows of one url. *)
Theorem insert_keeps_urls_unique (d : db) (now url_ : string)
    (source_name_ media_type_ : option string) (severity_score_ : Q)
    (title_ published_at_ snippet_ : option string) :
  (unique_urls d ->
   unique_urls (insert d now url_ source_name_ media_type_ severity_score_
                  title_ published_at_ snippet_)) /\
  (forall calls, unique_urls (insert_all empty_db calls)).
Proof.
  split; [apply insert_or_replace_unique|].
  apply insert_all_invariant; [constructor|].
  intros d0 c. apply insert_or_replace_unique.
Qed.

Lemma insert_or_replace_fresh d row :
  (forall n, id (row n) = n) ->
  fresh_ids d -> fresh_ids (insert_or_replace d row).
Proof.
  unfold fresh_ids, insert_or_replace. simpl. intros Hid [Hnd Hle].
  rewrite List.Forall_forall in Hle. split.
  - rewrite map_app. simpl. apply NoDup_snoc; [now apply NoDup_map_filter|].
    intros Hin. apply in_map_iff in Hin as (r & Hr & Hin).
    apply filter_In in Hin as [Hin _]. specialize (Hle r Hin).
    rewrite Hid in Hr. lia.
  - apply List.Forall_app. split.
    + apply List.Forall_forall. intros r [Hin _]%filter_In.
      specialize (Hle r Hin). lia.
    + constructor; [|constructor]. rewrite Hid. lia.
Qed.

Lemma insert_all_last_id calls d :
  last_id (insert_all d calls) = (last_id d + Z.of_nat (length calls))%Z.
Proof.
  unfold insert_all. revert d.
  induction calls as [|c l IH]; intros d; simpl fold_left; [simpl; lia|].
  rewrite IH. simpl. lia.
Qed.

(** X17: the rows that stay keep their ids and the new row, the last of
    the table, gets the id [last_id + 1], which becomes the new [last_id];
    it is above the id of every row of a table whose ids are at most
    [last_id]; ids stay pairwise distinct; and after [n] calls on the empty
    table [last_id] is [n], whatever was replaced on the way. *)
Theorem insert_ids_fresh (d : db) (now url_ : string)
    (source_name_ media_type_ : option string) (severity_score_ : Q)
    (title_ published_at_ snippet_ : option string) :
  let d' := insert d now url_ source_name_ media_type_ severity_score_
              title_ published_at_ snippet_ in
  map id (findings d')
  = map id (List.filter (fun r => negb (String.eqb (url r) (slice 0 2000 url_)))
              (findings d))
    ++ [(last_id d + 1)%Z] /\
  last_id d' = (last_id d + 1)%Z /\
  (fresh_ids d ->
   fresh_ids d' /\ forall r, In r (findings d) -> (id r < last_id d')%Z) /\
  (forall calls,
     fresh_ids (insert_all empty_db calls) /\
     last_id (insert_all empty_db calls) = Z.of_nat (length calls)).
Proof.
  intros d'.
  split; [unfold d'; now rewrite insert_findings, map_app|].
  split; [reflexivity|]. split.
  - intros H. split; [now apply insert_or_replace_fresh|].
    destruct H as [_ Hle]. rewrite List.Forall_forall in Hle.
    intros r Hr. specialize (Hle r Hr). simpl. lia.
  - intros calls. split; [|now rewrite insert_all_last_id].
    revert calls. apply insert_all_invariant.
    + split; constructor.
    + intros d0 c. now apply insert_or_replace_fresh.
Qed.

Lemma find_url_app u l1 l2 :
  List.find (fun r => String.eqb (url r) u) (l1 ++ l2) =
  match List.find (fun r => String.eqb (url r) u) l1 with
  | Some r => Some r
  | None => List.find (fun r => String.eqb (url r) u) l2
  end.
Proof.
  induction l1 as [|x l1 IH]; simpl; [reflexivity|].
  destruct (String.eqb (url x) u); [reflexivity|exact IH].
Qed.

Lemma find_url_filtered_same u l :
  List.find (fun r => String.eqb (url r) u)
    (List.filter (fun r => negb (String.eqb (url r) u)) l) = None.
Proof.
  induction l as [|x l IH]; simpl; [reflexivity|].
  destruct (String.eqb (url x) u) eqn:E; simpl; [exact IH|].
  now rewrite E.
Qed.

Lemma find_url_filtered_other u u' l :
  u <> u' ->
  List.find (fun r => String.eqb (url r) u)
    (List.filter (fun r => negb (String.eqb (url r) u')) l)
  = List.find (fun r => String.eqb (url r) u) l.
Proof.
  intros Hne. induction l as [|x l IH]; simpl; [reflexivity|].
  destruct (String.eqb (url x) u') eqn:E'; simpl.
  - apply String.eqb_eq in E'.
    destruct (String.eqb (url x) u) eqn:E; [|exact IH].
    apply String.eqb_eq in E. congruence.
  - destruct (String.eqb (url x) u); [reflexivity|exact IH].
Qed.

(** X18: what [insert] writes is what a lookup by url reads: the row found
    under the first 2000 characters of the url (the url itself when it is
    not longer) has the new id, the clamped severity, the text fields cut
    to their lengths with their defaults, and the time of the call. *)
Theorem insert_then_find (d : db) (now url_ : string)
    (source_name_ media_type_ : option string) (severity_score_ : Q)
    (title_ published_at_ snippet_ : option string) :
  let d' := insert d now url_ source_name_ media_type_ severity_score_
              title_ published_at_ snippet_ in
  let row :=
    {| id := last_id d + 1;
       title := slice 0 500 (or_default title_ EmptyString);
       url := slice 0 2000 url_;
       source_name := slice 0 100 (or_default source_name_ "unknown");
       media_type := slice 0 50 (or_default media_type_ "unknown");
       severity_score := py_max 0 (py_min 1 severity_score_);
       published_at := slice 0 50 (or_default published_at_ EmptyString);
       snippet := slice 0 2000 (or_default snippet_ EmptyString);
       fetched_at := now |} in
  find_url (slice 0 2000 url_) d' = Some row /\
  ((String.length url_ <= 2000)%nat -> find_url url_ d' = Some row).
Proof.
  intros d' row.
  assert (H : find_url (slice 0 2000 url_) d' = Some row).
  { unfold find_url, d'. rewrite insert_findings, find_url_app, find_url_filtered_same.
    simpl. now rewrite String.eqb_refl. }
  split; [exact H|]. intros Hlen. now rewrite slice_0_short in H.
Qed.

Lemma filter_length_unique u l :
  List.NoDup (map url l) ->
  length l =
  (length (List.filter (fun r => negb (String.eqb (url r) u)) l)
   + match List.find (fun r => String.eqb (url r) u) l with
     | Some _ => 1
     | None => 0
     end)%nat.
Proof.
  induction l as [|x l IH]; simpl; [reflexivity|].
  intros H. apply List.NoDup_cons_iff in H as [Hx Hl]. specialize (IH Hl).
  destruct (String.eqb (url x) u) eqn:E; simpl; [|lia].
  apply String.eqb_eq in E.
  assert (Hn : List.find (fun r => String.eqb (url r) u) l = None).
  { destruct (List.find _ l) as [y|] eqn:F; [|reflexivity].
    apply find_some in F as [Hy Ey]. apply String.eqb_eq in Ey.
    exfalso. apply Hx. rewrite E, <- Ey. now apply in_map. }
  rewrite Hn in IH. lia.
Qed.

(** X19: [insert] touches the row of its own url only: a lookup under
    another url reads what it read before, and a table of distinct urls
    grows by one row when the url is new and keeps its size when the url
    was there. *)
Theorem insert_leaves_other_urls (d : db) (now url_ : string)
    (source_name_ media_type_ : option string) (severity_score_ : Q)
    (title_ published_at_ snippet_ : option string) :
  let d' := insert d now url_ source_name_ media_type_ severity_score_
              title_ published_at_ snippet_ in
  (forall u, u <> slice 0 2000 url_ -> find_url u d' = find_url u d) /\
  (unique_urls d ->
   length (findings d') =
   match find_url (slice 0 2000 url_) d with
   | Some _ => length (findings d)
   | None => S (length (findings d))
   end).
Proof.
  intros d'. split.
  - intros u Hne. unfold find_url, d'.
    rewrite insert_findings, find_url_app, find_url_filtered_other by exact Hne.
    destruct (List.find _ (findings d)); [reflexivity|]. simpl.
    destruct (String.eqb (slice 0 2000 url_) u) eqn:E; [|reflexivity].
    apply String.eqb_eq in E. congruence.
  - intros Hu. unfold d'. rewrite insert_findings, List.length_app. simpl.
    pose proof (filter_length_unique (slice 0 2000 url_) (findings d) Hu) as H.
    unfold find_url. destruct (List.find _ (findings d)); lia.
Qed.

Lemma filter_filter_same {A} (f : A -> bool) l :
  List.filter f (List.filter f l) = List.filter f l.
Proof.
  induction l as [|x l IH]; simpl; [reflexivity|].
  destruct (f x) eqn:E; simpl; [rewrite E|]; now rewrite ?IH.
Qed.

(** X20: two urls that agree on their first 2000 characters are one url
    for the table: the second [insert] replaces the row of the first, so
    that the table is the one the second call alone would have left, with
    the id counted once more. *)
Theorem insert_replaces_same_prefix (d : db) (now1 now2 url1 url2 : string)
    (source1 source2 media1 media2 : option string) (severity1 severity2 : Q)
    (title1 title2 published1 published2 snippet1 snippet2 : option string) :
  slice 0 2000 url1 = slice 0 2000 url2 ->
  let d1 := insert d now1 url1 source1 media1 severity1 title1 published1 snippet1 in
  let d2 := insert d1 now2 url2 source2 media2 severity2 title2 published2 snippet2 in
  let only := insert d now2 url2 source2 media2 severity2 title2 published2 snippet2 in
  map (fun r => (title r, url r, source_name r, media_type r, severity_score r,
                 published_at r, snippet r, fetched_at r)) (findings d2)
  = map (fun r => (title r, url r, source_name r, media_type r, severity_score r,
                   published_at r, snippet r, fetched_at r)) (findings only) /\
  length (findings d2) = length (findings d1) /\
  last_id d2 = (last_id d + 2)%Z.
Proof.
  intros E d1 d2 only.
  assert (Hf : List.filter (fun r => negb (String.eqb (url r) (slice 0 2000 url2)))
                 (findings d1)
               = List.filter (fun r => negb (String.eqb (url r) (slice 0 2000 url2)))
                   (findings d)).
  { unfold d1. rewrite insert_findings, List.filter_app, E, filter_filter_same.
    simpl. rewrite String.eqb_refl. simpl. apply app_nil_r. }
  repeat split.
  - unfold d2, only. rewrite !insert_findings, Hf, !map_app. reflexivity.
  - unfold d2. rewrite insert_findings, Hf, List.length_app.
    unfold d1. rewrite insert_findings, List.length_app, E. reflexivity.
  - simpl. lia.
Qed.

Lemma insert_or_replace_Forall (P : finding -> Prop) d row :
  Forall P (findings d) -> P (row (last_id d + 1)%Z) ->
  Forall P (findings (insert_or_replace d row)).
Proof.
  unfold insert_or_replace. simpl. intros Hd Hrow.
  apply List.Forall_app. split.
  - rewrite List.Forall_forall in *. intros r [Hr _]%filter_In. now apply Hd.
  - now constructor.
Qed.

Lemma apply_call_within_limits d c :
  Forall within_limits (findings d) -> Forall within_limits (findings (apply_call d c)).
Proof.
  intros H. apply insert_or_replace_Forall; [exact H|].
  unfold within_limits. simpl.
  repeat split; try apply slice_0_length;
    apply slice_0_nonempty; try lia; now apply or_default_nonempty.
Qed.

(** X21: every row written by [insert] has a title of at most 500
    characters, a url of at most 2000, a source of at most 100, a media
    type and a publication date of at most 50, a snippet of at most 2000,
    and a source and a media type that are not empty; a table filled by
    [insert] alone holds such rows only. *)
Theorem insert_cuts_fields (d : db) (now url_ : string)
    (source_name_ media_type_ : option string) (severity_score_ : Q)
    (title_ published_at_ snippet_ : option string) :
  (Forall within_limits (findings d) ->
   Forall within_limits
     (findings (insert d now url_ source_name_ media_type_ severity_score_
                  title_ published_at_ snippet_))) /\
  (forall calls, Forall within_limits (findings (insert_all empty_db calls))).
Proof.
  split.
  - apply (apply_call_within_limits d
             {| call_now := now; call_url := url_; call_source_name := source_name_;
                call_media_type := media_type_; call_severity_score := severity_score_;
                call_title := title_; call_published_at := published_at_;
                call_snippet := snippet_ |}).
  - apply (insert_all_invariant (fun d0 => Forall within_limits (findings d0)));
      [constructor|apply apply_call_within_limits].
Qed.

End InsertMore.

(** ** [query], [get_stats] and [export_csv] *)

Section ReadFacts.
Import PyFloat PyFloatFacts PyMinMaxFacts PyStr Database DatabaseRead Spec2.
Local Open Scope Q_scope.

Variable order : list finding -> list finding.

Lemma insert_newest_perm r l : Permutation (r :: l) (insert_newest r l).
Proof.
  induction l as [|x l IH]; simpl; [reflexivity|].
  destruct (String.ltb (fetched_at r) (fetched_at x)); [|reflexivity].
  rewrite perm_swap. now apply perm_skip.
Qed.

Lemma newest_first_perm l : Permutation l (newest_first l).
Proof.
  induction l as [|r l IH]; simpl; [reflexivity|].
  rewrite <- insert_newest_perm. now apply perm_skip.
Qed.

Lemma firstn_incl {A} n (l : list A) x : In x (firstn n l) -> In x l.
Proof.
  intros H. rewrite <- (firstn_skipn n l). apply in_or_app. now left.
Qed.

Lemma sql_limit_incl limit rows r : In r (sql_limit limit rows) -> In r rows.
Proof.
  unfold sql_limit. destruct (limit <? 0)%Z; [auto|apply firstn_incl].
Qed.

(** X22: whatever order the engine gives to rows of equal date, [query]
    returns rows of the table that pass every filter given; with a limit
    that is not negative it returns the smaller of the limit and the number
    of such rows; and with a negative limit, or one that is not below that
    number, it returns them all. *)
Theorem query_returns_matching_rows (d : db) (score_min score_max : option Q)
    (source_name_ media_type_ : option string) (limit : Z) :
  (forall l, Permutation l (order l)) ->
  let passes := where_clause score_min score_max source_name_ media_type_ in
  let result := query order d score_min score_max source_name_ media_type_ limit in
  (forall r, In r result -> In r (findings d) /\ passes r = true) /\
  ((0 <= limit)%Z ->
   length result = Nat.min (Z.to_nat limit) (length (List.filter passes (findings d)))) /\
  ((limit < 0)%Z \/ (Z.of_nat (length (List.filter passes (findings d))) <= limit)%Z ->
   Permutation (List.filter passes (findings d)) result).
Proof.
  intros Hperm passes result. unfold result, query. fold passes.
  set (matching := List.filter passes (findings d)).
  repeat split.
  - apply sql_limit_incl in H.
    apply (Permutation_in _ (Permutation_sym (Hperm matching))) in H.
    unfold matching in H. now apply filter_In in H.
  - apply sql_limit_incl in H.
    apply (Permutation_in _ (Permutation_sym (Hperm matching))) in H.
    unfold matching in H. now apply filter_In in H.
  - intros Hl. unfold sql_limit.
    destruct (limit <? 0)%Z eqn:E; [apply Z.ltb_lt in E; lia|].
    now rewrite List.length_firstn, <- (Permutation_length (Hperm matching)).
  - intros Hl. unfold sql_limit.
    destruct (limit <? 0)%Z eqn:E; [apply Hperm|].
    apply Z.ltb_ge in E. destruct Hl as [Hl|Hl]; [lia|].
    rewrite firstn_all2; [apply Hperm|].
    rewrite <- (Permutation_length (Hperm matching)). lia.
Qed.

Lemma filter_ext_in {A} (f g : A -> bool) l :
  (forall x, In x l -> f x = g x) -> List.filter f l = List.filter g l.
Proof.
  induction l as [|x l IH]; simpl; intros H; [reflexivity|].
  rewrite (H x (or_introl eq_refl)), IH; [reflexivity|]. intros y Hy. apply H. now right.
Qed.

Lemma filter_none {A} (f : A -> bool) l :
  (forall x, In x l -> f x = false) -> List.filter f l = [].
Proof.
  induction l as [|x l IH]; simpl; intros H; [reflexivity|].
  rewrite (H x (or_introl eq_refl)). apply IH. intros y Hy. apply H. now right.
Qed.

(** X23: on a table whose severities are in [[0, 1]], as every table
    filled by [insert] is, the bounds 0.0 and 1.0 of [query] filter nothing,
    and a lower bound above 1.0 or an upper bound below 0.0 leaves no row. *)
Theorem query_bounds_on_stored_scores (d : db) (score_min score_max : option Q)
    (source_name_ media_type_ : option string) (limit : Z) (m : Q) :
  (forall l, Permutation l (order l)) ->
  severities_in_range d ->
  query order d (Some 0) (Some 1) source_name_ media_type_ limit
  = query order d None None source_name_ media_type_ limit /\
  (1 < m -> query order d (Some m) score_max source_name_ media_type_ limit = []) /\
  (m < 0 -> query order d score_min (Some m) source_name_ media_type_ limit = []).
Proof.
  intros Hperm Hd. unfold severities_in_range in Hd.
  rewrite List.Forall_forall in Hd.
  assert (Hnil : forall limit', sql_limit limit' (order []) = []).
  { intros limit'. rewrite (Permutation_nil (Hperm [])).
    unfold sql_limit. destruct (limit' <? 0)%Z; [reflexivity|apply firstn_nil]. }
  unfold query. repeat split.
  - f_equal. f_equal. apply filter_ext_in. intros r Hr.
    destruct (Hd r Hr) as [H0 H1]. unfold where_clause.
    apply leb_le in H0, H1. now rewrite H0, H1.
  - intros Hm. rewrite filter_none; [apply Hnil|].
    intros r Hr. destruct (Hd r Hr) as [H0 H1]. unfold where_clause.
    cmp_cases (leb m (severity_score r)); [lra|reflexivity].
  - intros Hm. rewrite filter_none; [apply Hnil|].
    intros r Hr. destruct (Hd r Hr) as [H0 H1]. unfold where_clause.
    cmp_cases (leb (severity_score r) m); [lra|].
    now rewrite andb_false_r.
Qed.

Lemma group_count_lookup key rows k :
  group_count key rows !! k =
  match count_key key k rows with
  | O => None
  | S n => Some (S n)
  end.
Proof.
  unfold count_key. induction rows as [|r l IH]; simpl; [apply lookup_empty|].
  destruct (String.eqb (key r) k) eqn:E.
  - apply String.eqb_eq in E. subst k. rewrite lookup_insert_eq, IH. simpl.
    now destruct (length _).
  - apply String.eqb_neq in E. now rewrite lookup_insert_ne.
Qed.

Lemma sum_counts_insert m k :
  sum_counts (<[k := S (default O (m !! k))]> m) = S (sum_counts m).
Proof.
  unfold sum_counts.
  assert (Hc : forall (m' : gmap string nat) (j1 j2 : string) (z1 z2 y : nat),
             j1 <> j2 -> m' !! j1 = Some z1 -> m' !! j2 = Some z2 ->
             (z1 + (z2 + y) = z2 + (z1 + y))%nat) by (intros; lia).
  destruct (m !! k) as [n|] eqn:E; simpl.
  - rewrite <- insert_delete_eq.
    rewrite map_fold_insert_L; [|apply Hc|apply lookup_delete_eq].
    rewrite (map_fold_delete_L _ _ k n m); [lia|apply Hc|exact E].
  - rewrite map_fold_insert_L; [lia|apply Hc|exact E].
Qed.

Lemma sum_counts_group_count key rows :
  sum_counts (group_count key rows) = length rows.
Proof.
  induction rows as [|r l IH]; simpl; [apply map_fold_empty|].
  now rewrite sum_counts_insert, IH.
Qed.

Lemma sum_severity_range rows :
  Forall (fun r => 0 <= severity_score r <= 1) rows ->
  0 <= sum_severity rows <= inject_Z (Z.of_nat (length rows)).
Proof.
  induction 1 as [|r l Hr Hl IH]; [simpl; change (inject_Z (Z.of_nat 0)) with 0; lra|].
  change (sum_severity (r :: l)) with (severity_score r + sum_severity l).
  replace (Z.of_nat (length (r :: l))) with (1 + Z.of_nat (length l))%Z
    by (simpl length; lia).
  rewrite inject_Z_plus. change (inject_Z 1) with 1. lra.
Qed.

(** X24: in the answer of [get_stats], [total] is the number of rows;
    each dictionary gives, for a name, the number of rows of that name and
    has no entry for a name without rows, so that its counts add up to
    [total]; the average is 0.0 for the empty table and, for severities in
    [[0, 1]], a number of [[0, 1]]. *)
Theorem get_stats_counts (d : db) (name : string) :
  let s := get_stats d in
  total s = length (findings d) /\
  by_source s !! name = match count_key source_name name (findings d) with
                        | O => None
                        | S n => Some (S n)
                        end /\
  by_media_type s !! name = match count_key media_type name (findings d) with
                            | O => None
                            | S n => Some (S n)
                            end /\
  sum_counts (by_source s) = total s /\
  sum_counts (by_media_type s) = total s /\
  (findings d = [] -> avg_severity s = 0) /\
  (severities_in_range d -> 0 <= avg_severity s <= 1).
Proof.
  intros s. unfold s, get_stats. simpl.
  split; [reflexivity|]. split; [apply group_count_lookup|].
  split; [apply group_count_lookup|].
  split; [apply sum_counts_group_count|]. split; [apply sum_counts_group_count|].
  split; [now intros ->|].
  intros Hd. unfold sql_avg.
  destruct (findings d) as [|r l] eqn:E; [lra|].
  pose proof (sum_severity_range _ Hd) as Hs. rewrite E in Hs.
  set (n := inject_Z (Z.of_nat (length (r :: l)))) in *.
  assert (Hn : 0 < n) by (apply inject_Z_pos; simpl length; lia).
  assert (Ha : 0 <= sum_severity (r :: l) / n <= 1).
  { split; [apply Qle_shift_div_l|apply Qle_shift_div_r]; lra. }
  split.
  - apply (Qle_trans _ (py_round2 0)); [discriminate|now apply py_round2_mono].
  - apply (Qle_trans _ (py_round2 1)); [now apply py_round2_mono|discriminate].
Qed.

Lemma filter_all {A} (l : list A) : List.filter (fun _ => true) l = l.
Proof. induction l as [|x l IH]; simpl; [reflexivity|now rewrite IH]. Qed.

(** X25: [export_csv] writes and counts at most 10000 rows: its count is
    the smaller of 10000 and the number of rows of the table, there is one
    written row of nine cells per counted row, and no written snippet has
    more than 500 characters. *)
Theorem export_csv_at_most_10000 (d : db) :
  (forall l, Permutation l (order l)) ->
  let '(header, rows, count) := export_csv order d in
  count = Nat.min (Z.to_nat 10000) (length (findings d)) /\
  length rows = count /\
  length header = 9%nat /\
  Forall (fun row =>
            length row = 9%nat /\
            exists s, nth_error row 7 = Some (CText s) /\ (String.length s <= 500)%nat)
    rows.
Proof.
  intros Hperm. unfold export_csv.
  pose proof (query_returns_matching_rows d None None None None 10000 Hperm)
    as (_ & Hlen & _).
  simpl in Hlen. specialize (Hlen ltac:(lia)).
  change (where_clause None None None None) with (fun _ : finding => true) in Hlen.
  rewrite filter_all in Hlen.
  split; [exact Hlen|]. split; [apply length_map|]. split; [reflexivity|].
  apply List.Forall_forall. intros row Hrow.
  apply in_map_iff in Hrow as (r & <- & _). split; [reflexivity|].
  eexists. split; [reflexivity|apply slice_0_length].
Qed.

End ReadFacts.

(** Closes a goal [List.NoDup l] or [Forall P l] on a list of the sample
    table. *)
Ltac sample_rows :=
  repeat (constructor; [cbn; intuition (try discriminate; try lia)|]);
  try constructor.

Lemma sample_table_unique : Spec2.unique_urls Sample2.table.
Proof. unfold Spec2.unique_urls. cbn. sample_rows. Qed.

Lemma sample_table_fresh : Spec2.fresh_ids Sample2.table.
Proof. unfold Spec2.fresh_ids. cbn. split; sample_rows. Qed.

Lemma sample_table_range : Database.severities_in_range Sample2.table.
Proof.
  unfold Database.severities_in_range. cbn.
  repeat (constructor; [split; discriminate|]). constructor.
Qed.

Lemma insert_keeps_urls_unique_witness :
  Spec2.unique_urls Sample2.table /\
  Spec2.unique_urls
    (Database.insert Sample2.table "2024-05-03T09:00:00Z" "http://news.example/a"
       None None (9 # 10) None None None).
Proof.
  split; [exact sample_table_unique|].
  apply (proj1 (insert_keeps_urls_unique Sample2.table "2024-05-03T09:00:00Z"
                  "http://news.example/a" None None (9 # 10) None None None)).
  exact sample_table_unique.
Defined.

Lemma insert_ids_fresh_witness :
  Spec2.fresh_ids Sample2.table /\
  map Database.id (Database.findings Sample2.table) = [1; 2]%Z /\
  Spec2.fresh_ids
    (Database.insert Sample2.table "2024-05-03T09:00:00Z" "http://news.example/a"
       None None (9 # 10) None None None) /\
  map Database.id
    (Database.findings
       (Database.insert Sample2.table "2024-05-03T09:00:00Z" "http://news.example/a"
          None None (9 # 10) None None None)) = [2; 3]%Z.
Proof.
  split; [exact sample_table_fresh|]. split; [reflexivity|]. split.
  - apply (proj1 (proj2 (proj2 (insert_ids_fresh Sample2.table "2024-05-03T09:00:00Z"
                           "http://news.example/a" None None (9 # 10) None None None)))).
    exact sample_table_fresh.
  - rewrite (proj1 (insert_ids_fresh Sample2.table "2024-05-03T09:00:00Z"
                      "http://news.example/a" None None (9 # 10) None None None)).
    reflexivity.
Defined.

Lemma insert_then_find_witness :
  (String.length "http://news.example/a" <= 2000)%nat /\
  option_map Database.severity_score
    (Spec2.find_url "http://news.example/a"
       (Database.insert Sample2.table "2024-05-03T09:00:00Z" "http://news.example/a"
          None None (9 # 10) None None None))
  = Some (9 # 10)%Q.
Proof.
  assert (H : (String.length "http://news.example/a" <= 2000)%nat) by (cbn; lia).
  split; [exact H|].
  rewrite (proj2 (insert_then_find Sample2.table "2024-05-03T09:00:00Z"
                    "http://news.example/a" None None (9 # 10) None None None) H).
  reflexivity.
Defined.

Lemma insert_leaves_other_urls_witness :
  "http://video.example/b"%string
    <> PyStr.slice 0 2000 "http://news.example/a" /\
  Spec2.find_url "http://video.example/b"
    (Database.insert Sample2.table "2024-05-03T09:00:00Z" "http://news.example/a"
       None None (9 # 10) None None None)
  = Spec2.find_url "http://video.example/b" Sample2.table.
Proof.
  split; [discriminate|].
  apply (proj1 (insert_leaves_other_urls Sample2.table "2024-05-03T09:00:00Z"
                  "http://news.example/a" None None (9 # 10) None None None)).
  discriminate.
Defined.

Lemma insert_replaces_same_prefix_witness :
  Sample2.long_url "one" <> Sample2.long_url "two" /\
  String.length (Sample2.long_url "one") = 2003%nat /\
  PyStr.slice 0 2000 (Sample2.long_url "one")
  = PyStr.slice 0 2000 (Sample2.long_url "two") /\
  length (Database.findings
            (Database.insert
               (Database.insert Sample2.table "2024-05-03T09:00:00Z"
                  (Sample2.long_url "one") None None (1 # 5) None None None)
               "2024-05-04T09:00:00Z" (Sample2.long_url "two")
               None None (9 # 10) None None None))
  = length (Database.findings
              (Database.insert Sample2.table "2024-05-03T09:00:00Z"
                 (Sample2.long_url "one") None None (1 # 5) None None None)).
Proof.
  assert (E : PyStr.slice 0 2000 (Sample2.long_url "one")
              = PyStr.slice 0 2000 (Sample2.long_url "two"))
    by (vm_compute; reflexivity).
  split; [intros H; apply (f_equal (PyStr.slice 2000 2003)) in H;
          vm_compute in H; discriminate H|].
  split; [vm_compute; reflexivity|]. split; [exact E|].
  apply (proj1 (proj2 (insert_replaces_same_prefix Sample2.table
           "2024-05-03T09:00:00Z" "2024-05-04T09:00:00Z"
           (Sample2.long_url "one") (Sample2.long_url "two")
           None None None None (1 # 5) (9 # 10) None None None None None None
           E))).
Defined.

Lemma insert_cuts_fields_witness :
  Forall Spec2.within_limits (Database.findings Database.empty_db) /\
  Forall Spec2.within_limits
    (Database.findings
       (Database.insert Database.empty_db "2024-05-01T10:00:00Z"
          "http://news.example/a" (Some EmptyString) None (1 # 5) None None None)).
Proof.
  split; [constructor|].
  apply (proj1 (insert_cuts_fields Database.empty_db "2024-05-01T10:00:00Z"
                  "http://news.example/a" (Some EmptyString) None (1 # 5)
                  None None None)).
  constructor.
Defined.

Lemma query_returns_matching_rows_witness :
  (0 <= 1)%Z /\
  length (DatabaseRead.query DatabaseRead.newest_first Sample2.table
            None None None None 1) = 1%nat.
Proof.
  split; [lia|].
  rewrite (proj1 (proj2 (query_returns_matching_rows DatabaseRead.newest_first
             Sample2.table None None None None 1 newest_first_perm))).
  - reflexivity.
  - lia.
Defined.

Lemma query_bounds_on_stored_scores_witness :
  Database.severities_in_range Sample2.table /\
  DatabaseRead.query DatabaseRead.newest_first Sample2.table
    (Some 0%Q) (Some 1%Q) (Some "newsapi"%string) None 10
  = DatabaseRead.query DatabaseRead.newest_first Sample2.table
      None None (Some "newsapi"%string) None 10.
Proof.
  split; [exact sample_table_range|].
  apply (proj1 (query_bounds_on_stored_scores DatabaseRead.newest_first Sample2.table
                  None None (Some "newsapi"%string) None 10 2
                  newest_first_perm sample_table_range)).
Defined.

Lemma get_stats_counts_witness :
  Database.severities_in_range Sample2.table /\
  (0 <= DatabaseRead.avg_severity (DatabaseRead.get_stats Sample2.table) <= 1)%Q.
Proof.
  split; [exact sample_table_range|].
  apply (proj2 (proj2 (proj2 (proj2 (proj2 (proj2
           (get_stats_counts Sample2.table "newsapi"))))))).
  exact sample_table_range.
Defined.

Lemma big_table_length :
  length (Database.findings Sample2.big_table) = Z.to_nat 10001.
Proof.
  change (Database.findings Sample2.big_table)
    with (map Sample2.numbered_row (seq 0 (Z.to_nat 10001))).
  now rewrite length_map, length_seq.
Qed.

Lemma export_csv_at_most_10000_witness :
  In (Sample2.numbered_row 0) (Database.findings Sample2.big_table) /\
  String.length (Database.snippet (Sample2.numbered_row 0)) = 600%nat /\
  length (Database.findings Sample2.big_table) = Z.to_nat 10001 /\
  let '(header, rows, count) :=
    DatabaseRead.export_csv DatabaseRead.newest_first Sample2.big_table in
  count = Nat.min (Z.to_nat 10000) (Z.to_nat 10001) /\
  length rows = count /\
  length header = 9%nat /\
  Forall (fun row =>
            length row = 9%nat /\
            exists s, nth_error row 7 = Some (DatabaseRead.CText s) /\
                      (String.length s <= 500)%nat)
    rows.
Proof.
  split.
  { change (Database.findings Sample2.big_table)
      with (map Sample2.numbered_row (seq 0 (Z.to_nat 10001))).
    apply in_map, in_seq. lia. }
  split; [vm_compute; reflexivity|]. split; [exact big_table_length|].
  rewrite <- big_table_length.
  apply (export_csv_at_most_10000 DatabaseRead.newest_first Sample2.big_table
           newest_first_perm).
Defined.

(** ** The order of the tables *)

Section TableOrder.
Import PyFloat PyFloatFacts PyMinMaxFacts PyStr Spec Spec2.
Local Open Scope Q_scope.

Variable EX : gmap string (list string).
Variable text_lower : string.

Let counts := contributes EX text_lower.

Lemma filter_perm {A} (f : A -> bool) l l' :
  Permutation l l' -> Permutation (List.filter f l) (List.filter f l').
Proof.
  induction 1 as [|x l l' Hp IH|x y l|l l' l'' H1 IH1 H2 IH2]; simpl.
  - constructor.
  - destruct (f x); [now constructor|assumption].
  - destruct (f x), (f y); try reflexivity. constructor.
  - etransitivity; eassumption.
Qed.

(** The loop never returns more than the sum of the weights that count. *)
Lemma keyword_loop_partial l total :
  nonneg_weights l = true ->
  keyword_loop EX text_lower l total <= total + weight_sum (List.filter counts l).
Proof.
  revert total. induction l as [|kw l IH]; intros total Hl; [simpl; lra|].
  simpl in Hl. apply andb_true_iff in Hl as [Hkw Hl]. apply leb_le in Hkw.
  rewrite keyword_loop_cons. simpl. fold counts.
  destruct (counts kw); simpl; [|now apply IH].
  pose proof (weight_sum_nonneg _ (nonneg_weights_filter counts l Hl)) as Hs.
  destruct (leb 1 (total + snd kw)); [lra|].
  specialize (IH (total + snd kw) Hl). lra.
Qed.

Lemma capped_cases KW :
  nonneg_weights KW = true ->
  let s := weight_sum (List.filter counts KW) in
  (1 <= s /\ capped_keyword_total KW EX text_lower = 1) \/
  (s < 1 /\ capped_keyword_total KW EX text_lower == s).
Proof.
  intros Hnn s. unfold capped_keyword_total.
  pose proof (sorted_by_weight_perm KW) as Hp.
  pose proof (nonneg_weights_perm _ _ Hp Hnn) as Hnn'.
  assert (Es : weight_sum (List.filter counts (sorted_by_weight KW)) == s).
  { apply weight_sum_perm, filter_perm. now symmetry. }
  pose proof (keyword_loop_partial (sorted_by_weight KW) 0 Hnn') as Hle.
  destruct (keyword_loop_total EX text_lower (sorted_by_weight KW) 0) as [H|H];
    fold counts in H.
  - left. split; [lra|now apply py_min_1_ge].
  - destruct (Qlt_le_dec s 1) as [Hs|Hs].
    + right. split; [exact Hs|].
      destruct (py_min_spec 1 (keyword_loop EX text_lower (sorted_by_weight KW) 0))
        as [[? ->]|[? ->]]; lra.
    + left. split; [exact Hs|]. apply py_min_1_ge. lra.
Qed.

(** The total accumulated over a list is at least the one accumulated
    over its first entries. *)
Lemma accumulate_app l1 l2 total :
  accumulate EX text_lower (l1 ++ l2) total
  = accumulate EX text_lower l2 (accumulate EX text_lower l1 total).
Proof.
  revert total. induction l1 as [|kw l1 IH]; intros total; simpl; [reflexivity|].
  apply IH.
Qed.

Lemma accumulate_grows l total :
  nonneg_weights l = true -> total <= accumulate EX text_lower l total.
Proof.
  revert total. induction l as [|kw l IH]; intros total Hl; simpl; [lra|].
  simpl in Hl. apply andb_true_iff in Hl as [Hkw Hl]. apply leb_le in Hkw.
  specialize (IH (if contributes EX text_lower kw then total + snd kw else total) Hl).
  destruct (contributes EX text_lower kw); lra.
Qed.

Lemma nonneg_weights_app l1 l2 :
  nonneg_weights (l1 ++ l2) = true -> nonneg_weights l2 = true.
Proof.
  unfold nonneg_weights. rewrite forallb_app. now intros [_ H]%andb_true_iff.
Qed.

(** X26: with weights that are not negative the early exit of the keyword
    loop does not show in the capped total: it is [min(1.0, _)] of the
    weights that count, all of them, added in the order of the loop. *)
Theorem early_exit_not_observable (KEYWORD_WEIGHTS : list (string * Q)) :
  nonneg_weights KEYWORD_WEIGHTS = true ->
  capped_keyword_total KEYWORD_WEIGHTS EX text_lower
  = py_min 1 (accumulate EX text_lower (sorted_by_weight KEYWORD_WEIGHTS) 0).
Proof.
  intros Hnn. unfold capped_keyword_total.
  pose proof (nonneg_weights_perm _ _ (sorted_by_weight_perm KEYWORD_WEIGHTS) Hnn)
    as Hnn'.
  destruct (keyword_loop_visited EX text_lower (sorted_by_weight KEYWORD_WEIGHTS) 0)
    as (l1 & l2 & E & Hv & [->|H1]).
  - rewrite app_nil_r in E. now rewrite Hv, E.
  - rewrite (py_min_1_ge _ H1). symmetry. apply py_min_1_ge.
    rewrite E, accumulate_app. rewrite E in Hnn', Hv, H1. rewrite Hv in H1.
    pose proof (accumulate_grows l2 (accumulate EX text_lower l1 0)
                  (nonneg_weights_app _ _ Hnn')).
    lra.
Qed.

Lemma capped_perm KW KW' :
  Permutation KW KW' -> nonneg_weights KW = true ->
  capped_keyword_total KW EX text_lower == capped_keyword_total KW' EX text_lower.
Proof.
  intros Hp Hnn.
  pose proof (nonneg_weights_perm _ _ Hp Hnn) as Hnn'.
  assert (Es : weight_sum (List.filter counts KW) == weight_sum (List.filter counts KW')).
  { now apply weight_sum_perm, filter_perm. }
  destruct (capped_cases KW Hnn) as [[H1 H2]|[H1 H2]];
    destruct (capped_cases KW' Hnn') as [[H1' H2']|[H1' H2']];
    rewrite H2, H2'; lra.
Qed.

Lemma existsb_perm {A} (f : A -> bool) l l' :
  Permutation l l' -> existsb f l = existsb f l'.
Proof.
  induction 1 as [|x l l' Hp IH|x y l|l l' l'' H1 IH1 H2 IH2]; simpl.
  - reflexivity.
  - now rewrite IH.
  - now destruct (f x), (f y).
  - congruence.
Qed.

Lemma py_min_comp a x y : x == y -> py_min a x == py_min a y.
Proof.
  intros E.
  destruct (py_min_spec a x) as [[? ->]|[? ->]];
    destruct (py_min_spec a y) as [[? ->]|[? ->]]; lra.
Qed.

Lemma py_max_comp a x y : x == y -> py_max a x == py_max a y.
Proof.
  intros E.
  destruct (py_max_spec a x) as [[? ->]|[? ->]];
    destruct (py_max_spec a y) as [[? ->]|[? ->]]; lra.
Qed.

Lemma first_phrase_present items pb :
  first_phrase text_lower items = Some pb -> str_in (fst pb) text_lower = true.
Proof. unfold first_phrase. intros H. now apply find_some in H. Qed.

Lemma first_phrase_some items pb :
  In pb items -> str_in (fst pb) text_lower = true ->
  exists pb', first_phrase text_lower items = Some pb'.
Proof.
  intros Hin Hp. unfold first_phrase.
  destruct (List.find _ items) as [pb'|] eqn:E; [eauto|].
  pose proof (find_none _ _ E pb Hin) as Hn. simpl in Hn. congruence.
Qed.

(** The bonus added, the same for two arrangements of one table. *)
Lemma bonus_loop_perm RC RC' t t' :
  Permutation RC RC' -> t == t' ->
  bonus_loop text_lower (sorted_by_weight RC) t
  == bonus_loop text_lower (sorted_by_weight RC') t'.
Proof.
  intros Hp Et. rewrite !bonus_loop_spec.
  assert (Hs : Permutation (sorted_by_weight RC) (sorted_by_weight RC')).
  { rewrite <- (sorted_by_weight_perm RC), <- (sorted_by_weight_perm RC'). exact Hp. }
  destruct (first_phrase text_lower (sorted_by_weight RC)) as [pb|] eqn:E;
    destruct (first_phrase text_lower (sorted_by_weight RC')) as [pb'|] eqn:E'.
  - apply py_min_comp.
    assert (snd pb' <= snd pb).
    { apply (first_phrase_largest text_lower (sorted_by_weight RC) pb);
        [apply sorted_by_weight_sorted|exact E| |now apply first_phrase_present in E'].
      apply (Permutation_in _ (Permutation_sym Hs)). now apply first_phrase_In in E'. }
    assert (snd pb <= snd pb').
    { apply (first_phrase_largest text_lower (sorted_by_weight RC') pb');
        [apply sorted_by_weight_sorted|exact E'| |now apply first_phrase_present in E].
      apply (Permutation_in _ Hs). now apply first_phrase_In in E. }
    lra.
  - exfalso.
    destruct (first_phrase_some (sorted_by_weight RC') pb) as [pb' Hc];
      [|now apply first_phrase_present in E|congruence].
    apply (Permutation_in _ Hs). now apply first_phrase_In in E.
  - exfalso.
    destruct (first_phrase_some (sorted_by_weight RC) pb') as [pb Hc];
      [|now apply first_phrase_present in E'|congruence].
    apply (Permutation_in _ (Permutation_sym Hs)). now apply first_phrase_In in E'.
  - exact Et.
Qed.

End TableOrder.

Section TableOrderScore.
Import PyFloat PyFloatFacts PyMinMaxFacts PyStr Spec Spec2.
Local Open Scope Q_scope.

(** X27: with keyword weights that are not negative, the score of a text
    does not depend on the order in which the keywords, the fiction
    indicators and the real-content phrases are declared. *)
Theorem score_text_table_order (KW KW' : list (string * Q))
    (EX : gmap string (list string)) (FI FI' : list string)
    (RC RC' : list (string * Q)) (s : string) :
  nonneg_weights KW = true ->
  Permutation KW KW' -> Permutation FI FI' -> Permutation RC RC' ->
  score_text KW EX FI RC s == score_text KW' EX FI' RC' s.
Proof.
  intros Hnn Hk Hf Hr. rewrite !score_text_unfold.
  destruct (blank s); [reflexivity|].
  apply py_max_comp, py_min_comp, bonus_loop_perm; [exact Hr|].
  rewrite !fiction_loop_spec, (existsb_perm _ _ _ Hf).
  pose proof (capped_perm EX (lower s) KW KW' Hk Hnn) as E.
  destruct (existsb _ FI'); rewrite E; reflexivity.
Qed.

End TableOrderScore.

Lemma early_exit_not_observable_witness :
  Spec.nonneg_weights Sample.KEYWORD_WEIGHTS = true /\
  capped_keyword_total Sample.KEYWORD_WEIGHTS Sample.FALSE_POSITIVE_EXCLUSIONS
    "murder, then a stabbing and a shooting"
  = PyFloat.py_min 1
      (Spec2.accumulate Sample.FALSE_POSITIVE_EXCLUSIONS
         "murder, then a stabbing and a shooting"
         (sorted_by_weight Sample.KEYWORD_WEIGHTS) 0).
Proof.
  split; [reflexivity|].
  apply (early_exit_not_observable Sample.FALSE_POSITIVE_EXCLUSIONS
           "murder, then a stabbing and a shooting" Sample.KEYWORD_WEIGHTS).
  reflexivity.
Defined.

Lemma score_text_table_order_witness :
  Spec.nonneg_weights Sample.KEYWORD_WEIGHTS = true /\
  (Sample.score_text "cctv: blood after the shooting"
   == score_text (rev Sample.KEYWORD_WEIGHTS) Sample.FALSE_POSITIVE_EXCLUSIONS
        (rev Sample.FICTION_FAKE_INDICATORS) (rev Sample.REAL_CONTENT_WEIGHTS)
        "cctv: blood after the shooting")%Q.
Proof.
  split; [reflexivity|].
  apply (score_text_table_order Sample.KEYWORD_WEIGHTS (rev Sample.KEYWORD_WEIGHTS)
           Sample.FALSE_POSITIVE_EXCLUSIONS
           Sample.FICTION_FAKE_INDICATORS (rev Sample.FICTION_FAKE_INDICATORS)
           Sample.REAL_CONTENT_WEIGHTS (rev Sample.REAL_CONTENT_WEIGHTS)
           "cctv: blood after the shooting" eq_refl).
  - apply Permutation_rev.
  - apply Permutation_rev.
  - apply Permutation_rev.
Defined.
